(** * wasi-go-net: the net-package source rewriter and overlay builder

    A shallow embedding of [GetReplacedNetSources], [findSourcePaths],
    [createReplacedNetSource], [netPkgGoFiles], [CreateOverlayFile] and
    [OverlayFile.Close], with the properties of the specification stated
    and proved (or refuted) over it.

    Conventions.
    - A Go [string] and a Go [[]byte] are both sequences of bytes; both are
      a Rocq [string] here.
    - A Go [error] is a value of type [error]; functions returning
      [(T, error)] return a [result T].
    - The operating system (file contents, directory listings, the outcome
      of [go env GOROOT], temporary-name generation) is a [World]; a
      function that reads it takes the world, one that changes it also
      returns the new one.
    - [go/parser], [go/format] and [encoding/json] are libraries outside the
      repository: they are [Variable]s of the section that holds the
      pipeline.  Token positions and comments of the syntax tree only
      matter to the printer, so the tree keeps none. *)

From Stdlib Require Import String Ascii List Bool Arith Lia.
From stdpp Require Import base option list gmap sets strings sorting.
Import ListNotations.

(** ** Errors *)

(** [filepath.SkipDir] and [filepath.SkipAll] are sentinel values that the
    directory walk compares against; every other error of the program is
    made of a message. *)
Inductive error : Type :=
| SkipDir
| SkipAll
| errorString (msg : string).

(** [err.Error()] *)
Definition Error (e : error) : string :=
  match e with
  | SkipDir => "skip this directory"
  | SkipAll => "skip everything and stop the walk"
  | errorString msg => msg
  end.

(** [errors.New] *)
Definition errors_New (msg : string) : error := errorString msg.

(** [fmt.Errorf(prefix + ": %w", err)] *)
Definition wrap (prefix : string) (err : error) : error :=
  errorString (prefix +:+ ": " +:+ Error err).

Inductive result (A : Type) : Type :=
| Ok (a : A)
| Err (e : error).
Arguments Ok {A} a.
Arguments Err {A} e.

(** ** Strings and paths *)

(** [strings.HasSuffix] *)
Definition HasSuffix (s suffix : string) : bool :=
  Nat.leb (String.length suffix) (String.length s)
  && String.eqb
       (substring (String.length s - String.length suffix)
                  (String.length suffix) s)
       suffix.

(** The backwards scan of [filepath.Ext]: [Some e] when the scan stopped
    inside [s] (at a dot, [e] being the text from that dot on, or at a
    separator, [e] being empty), [None] when it ran past the front. *)
Fixpoint scanExt (s : string) : option string :=
  match s with
  | EmptyString => None
  | String c s' =>
      match scanExt s' with
      | Some e => Some e
      | None =>
          if Ascii.eqb c "."%char then Some (String c s')
          else if Ascii.eqb c "/"%char then Some ""
          else None
      end
  end.

(** [filepath.Ext] *)
Definition Ext (path : string) : string := default "" (scanExt path).

(** [filepath.Join] of a directory and further elements.  Empty elements
    are dropped as in Go; the final [Clean] is left out. *)
Definition Join (elems : list string) : string :=
  match List.filter (fun e => negb (String.eqb e "")) elems with
  | [] => ""
  | e :: es => fold_left (fun acc x => acc +:+ "/" +:+ x) es e
  end.

(** The last path element: the text after the last separator. *)
Fixpoint lastElem (s : string) : string :=
  match s with
  | EmptyString => ""
  | String c s' =>
      if existsb (Ascii.eqb "/"%char) (list_ascii_of_string s') then lastElem s'
      else if Ascii.eqb c "/"%char then s' else s
  end.

(** Trailing separators removed. *)
Fixpoint stripSlashes (s : string) : string :=
  match s with
  | EmptyString => ""
  | String c s' =>
      match stripSlashes s' with
      | EmptyString => if Ascii.eqb c "/"%char then "" else String c ""
      | t => String c t
      end
  end.

(** [filepath.Base] *)
Definition Base (path : string) : string :=
  if String.eqb path "" then "."
  else
    let p := stripSlashes path in
    if String.eqb p "" then "/" else lastElem p.

(** [strings.TrimSpace], for the ASCII white space. *)
Definition isSpace (c : ascii) : bool :=
  existsb (Ascii.eqb c)
    [" "%char; "009"%char; "010"%char; "011"%char; "012"%char; "013"%char].

Fixpoint trimLeft (s : string) : string :=
  match s with
  | EmptyString => ""
  | String c s' => if isSpace c then trimLeft s' else s
  end.

Fixpoint trimRight (s : string) : string :=
  match s with
  | EmptyString => ""
  | String c s' =>
      match trimRight s' with
      | EmptyString => if isSpace c then "" else String c ""
      | t => String c t
      end
  end.

Definition TrimSpace (s : string) : string := trimRight (trimLeft s).

(** ** The syntax tree of [go/ast], as far as the program looks at it *)

Module ast.

#[warnings="-register-all"] Inductive Expr : Type :=
| Ident (Name : string)
| StarExpr (X : Expr)
| SelectorExpr (X : Expr) (Sel : string)
| CallExpr (Fun : Expr) (Args : list Expr)
| OtherExpr (src : string).

Inductive Stmt : Type :=
| ReturnStmt (Results : list Expr)
| OtherStmt (src : string).

(** [BlockStmt.List] *)
Definition BlockStmt : Type := list Stmt.

Record Field : Type := mkField {
  Names : list string;
  Type_ : Expr
}.

(** [FieldList.List] *)
Definition FieldList : Type := list Field.

Record FuncType : Type := mkFuncType {
  Params : FieldList;
  Results : option FieldList
}.

Record FuncDecl : Type := mkFuncDecl {
  Doc : list string;            (* the texts of Doc.List; [] for a nil Doc *)
  Recv : option FieldList;      (* None is the nil receiver *)
  Name : string;                (* Name.Name *)
  FType : FuncType;             (* the field called Type *)
  Body : option BlockStmt       (* None is the nil body *)
}.

Record ImportSpec : Type := mkImportSpec {
  ImportName : option string;   (* Name.Name; None for a nil Name *)
  PathValue : string            (* Path.Value, quotes included *)
}.

Inductive Token : Type := IMPORT | CONST | TYPE | VAR.

Inductive Spec : Type :=
| SImport (imp : ImportSpec)
| SOther (src : string).

Record GenDecl : Type := mkGenDecl {
  Tok : Token;
  Specs : list Spec
}.

Inductive Decl : Type :=
| DFunc (f : FuncDecl)
| DGen (g : GenDecl)
| DBad.

Record File : Type := mkFile {
  Imports : list ImportSpec;
  Decls : list Decl
}.

Definition isImportTok (t : Token) : bool :=
  match t with IMPORT => true | _ => false end.

End ast.
Import ast.

(** The double quote, and the value of the path literal of the marker
    import: the word unsafe between two double quotes. *)
Definition dquote : string := String (ascii_of_nat 34) "".
Definition unsafePath : string := dquote +:+ "unsafe" +:+ dquote.

(** ** The two matchers of the discovery pass *)

(** The first function literal handed to [findSourcePaths] by
    [GetReplacedNetSources]. *)
Definition dialMatcher (decl : FuncDecl) : bool :=
  if negb (String.eqb (Name decl) "DialContext") then false
  else
    match Recv decl with
    | None => false
    | Some [] => false
    | Some (recv0 :: _) =>
        match Names recv0 with
        | [] => false
        | _ :: _ =>
            match Type_ recv0 with
            | StarExpr (Ident name) => String.eqb name "Dialer"
            | _ => false
            end
        end
    end.

(** The second function literal handed to [findSourcePaths]. *)
Definition listenMatcher (decl : FuncDecl) : bool :=
  String.eqb (Name decl) "Listen"
  && match Recv decl with None => true | Some _ => false end.

(** The dial-predicate in the words of the specification: the name is
    DialContext and the receiver list has exactly one parameter, whose type
    is a pointer to the identifier Dialer. *)
Definition dialPredicate (decl : FuncDecl) : Prop :=
  Name decl = "DialContext"
  /\ exists names, Recv decl = Some [mkField names (StarExpr (Ident "Dialer"))].

(** The listen-predicate in the words of the specification. *)
Definition listenPredicate (decl : FuncDecl) : Prop :=
  Name decl = "Listen" /\ Recv decl = None.

(** A method whose receiver list is one parameter without a name. *)
Definition unnamedReceiver (funcDecl : FuncDecl) : bool :=
  match Recv funcDecl with
  | Some [recv0] => match Names recv0 with [] => true | _ => false end
  | _ => false
  end.

(** A declaration that is no function, or is such a method. *)
Definition onlyUnnamedReceivers (decl : Decl) : bool :=
  match decl with
  | DFunc funcDecl => unnamedReceiver funcDecl
  | _ => true
  end.

(** ** The rewriter on the syntax tree *)

(** The loop over [astFile.Imports] that sets [hasUnsafeImport]. *)
Definition hasUnsafeImport (imports : list ImportSpec) : bool :=
  existsb (fun imp => String.eqb (PathValue imp) unsafePath) imports.

(** The [unsafeImport] spec that the rewriter builds. *)
Definition unsafeImport : ImportSpec :=
  {| ImportName := Some "_"; PathValue := unsafePath |}.

Definition isImportDecl (decl : Decl) : bool :=
  match decl with
  | DGen genDecl => isImportTok (Tok genDecl)
  | _ => false
  end.

(** The loop that looks for the last import declaration, from the
    declaration of index [i] on; [last] is the index found so far. *)
Fixpoint lastImportFrom (i : nat) (decls : list Decl) (last : option nat)
  : option nat :=
  match decls with
  | [] => last
  | decl :: rest =>
      lastImportFrom (S i) rest (if isImportDecl decl then Some i else last)
  end.

(** The index of the declaration that [lastImportDecl] ends up pointing to:
    the last general declaration whose token is IMPORT. *)
Definition lastImportDecl (decls : list Decl) : option nat :=
  lastImportFrom 0 decls None.

(** [lastImportDecl.Specs = append(lastImportDecl.Specs, unsafeImport)] on
    the declaration in place. *)
Definition appendSpec (imp : ImportSpec) (decl : Decl) : Decl :=
  match decl with
  | DGen genDecl =>
      DGen {| Tok := Tok genDecl; Specs := Specs genDecl ++ [SImport imp] |}
  | _ => decl
  end.

(** The block under [if !hasUnsafeImport]. *)
Definition addUnsafeImport (astFile : File) : File :=
  if hasUnsafeImport (Imports astFile) then astFile
  else
    let imports := Imports astFile ++ [unsafeImport] in
    match lastImportDecl (Decls astFile) with
    | Some i =>
        {| Imports := imports;
           Decls := alter (appendSpec unsafeImport) i (Decls astFile) |}
    | None =>
        {| Imports := imports;
           Decls := DGen {| Tok := IMPORT; Specs := [SImport unsafeImport] |}
                    :: Decls astFile |}
    end.

(** The body given to a DialContext method. *)
Definition dialContextBody : BlockStmt :=
  [ReturnStmt
     [CallExpr (Ident "_dialContext")
        [Ident "ctx"; Ident "network"; Ident "address"]]].

(** The body given to the Listen function. *)
Definition listenBody : BlockStmt :=
  [ReturnStmt
     [CallExpr (Ident "_listen") [Ident "network"; Ident "address"]]].

(** [funcDecl.Body = body] *)
Definition setBody (funcDecl : FuncDecl) (body : BlockStmt) : FuncDecl :=
  {| Doc := Doc funcDecl; Recv := Recv funcDecl; Name := Name funcDecl;
     FType := FType funcDecl; Body := Some body |}.

(** The two cases of the [switch] in the rewriting loop. *)
Definition isDialCase (funcDecl : FuncDecl) : bool :=
  String.eqb (Name funcDecl) "DialContext"
  && match Recv funcDecl with Some _ => true | None => false end.

Definition isListenCase (funcDecl : FuncDecl) : bool :=
  String.eqb (Name funcDecl) "Listen"
  && match Recv funcDecl with None => true | Some _ => false end.

(** The state of the rewriting loop: the declarations already passed, and
    the two flags. *)
Record Found : Type := mkFound {
  foundDialContext : bool;
  foundListen : bool
}.

(** One iteration of the loop over [astFile.Decls]. *)
Definition replaceDecl (decl : Decl) (found : Found) : Decl * Found :=
  match decl with
  | DFunc funcDecl =>
      if isDialCase funcDecl then
        (DFunc (setBody funcDecl dialContextBody),
         {| foundDialContext := true; foundListen := foundListen found |})
      else if isListenCase funcDecl then
        (DFunc (setBody funcDecl listenBody),
         {| foundDialContext := foundDialContext found; foundListen := true |})
      else (decl, found)
  | _ => (decl, found)
  end.

(** The whole loop. *)
Fixpoint replaceDecls (decls : list Decl) (found : Found)
  : list Decl * Found :=
  match decls with
  | [] => ([], found)
  | decl :: rest =>
      let '(decl', found') := replaceDecl decl found in
      let '(rest', found'') := replaceDecls rest found' in
      (decl' :: rest', found'')
  end.

(** The forward declaration bound to wasip1.DialContext. *)
Definition dialContextFuncDecl : FuncDecl :=
  {| Doc := ["//go:linkname _dialContext github.com/goccy/wasi-go-net/wasip1.DialContext"];
     Recv := None;
     Name := "_dialContext";
     FType :=
       {| Params :=
            [ {| Names := ["ctx"];
                 Type_ := SelectorExpr (Ident "context") "Context" |};
              {| Names := ["network"]; Type_ := Ident "string" |};
              {| Names := ["address"]; Type_ := Ident "string" |} ];
          Results :=
            Some [ {| Names := []; Type_ := Ident "Conn" |};
                   {| Names := []; Type_ := Ident "error" |} ] |};
     Body := None |}.

(** The forward declaration bound to wasip1.Listen. *)
Definition listenFuncDecl : FuncDecl :=
  {| Doc := ["//go:linkname _listen github.com/goccy/wasi-go-net/wasip1.Listen"];
     Recv := None;
     Name := "_listen";
     FType :=
       {| Params :=
            [ {| Names := ["network"]; Type_ := Ident "string" |};
              {| Names := ["address"]; Type_ := Ident "string" |} ];
          Results :=
            Some [ {| Names := []; Type_ := Ident "Listener" |};
                   {| Names := []; Type_ := Ident "error" |} ] |};
     Body := None |}.

Definition noFound : Found :=
  {| foundDialContext := false; foundListen := false |}.

(** What the loop makes of one declaration, whatever the flags. *)
Definition replaced (decl : Decl) : Decl := fst (replaceDecl decl noFound).

Definition isDialDecl (decl : Decl) : bool :=
  match decl with DFunc funcDecl => isDialCase funcDecl | _ => false end.

Definition isListenDecl (decl : Decl) : bool :=
  match decl with DFunc funcDecl => isListenCase funcDecl | _ => false end.

(** The import step keeps every function declaration, in order; it moves
    them one place down when it puts a new import declaration in front. *)
Definition importShift (astFile : File) : nat :=
  if hasUnsafeImport (Imports astFile) then 0
  else match lastImportDecl (Decls astFile) with Some _ => 0 | None => 1 end.

(** The names of the formal parameters of a function, in order. *)
Definition paramNames (funcDecl : FuncDecl) : list string :=
  concat (map Names (Params (FType funcDecl))).

(** A body that is a single return of a call to [callee] with the names
    [args] as arguments, in order. *)
Definition returnsCall (callee : string) (args : list string)
  (funcDecl : FuncDecl) : Prop :=
  Body funcDecl = Some [ReturnStmt [CallExpr (Ident callee) (map Ident args)]].

(** In the words of the specification: the rewritten declaration forwards
    the formal parameter names of the original one. *)
Definition forwardsOriginalNames (callee : string)
  (original rewritten : FuncDecl) : Prop :=
  returnsCall callee (paramNames original) rewritten.

(** A declaration that the rewriting loop leaves as it is. *)
Definition noTargetDecl (decl : Decl) : bool :=
  negb (isDialDecl decl) && negb (isListenDecl decl).









(** [createReplacedNetSource] between the parse and the printing: the
    import step, the body replacement, the check of the flags and the two
    appended forward declarations. *)
Definition rewriteFile (path : string) (astFile : File) : result File :=
  let astFile1 := addUnsafeImport astFile in
  let '(decls, found) :=
    replaceDecls (Decls astFile1)
      {| foundDialContext := false; foundListen := false |} in
  if negb (foundDialContext found) && negb (foundListen found) then
    Err (errorString
           ("no target functions (DialContext or Listen) found in " +:+ path))
  else
    let decls1 :=
      if foundDialContext found then decls ++ [DFunc dialContextFuncDecl]
      else decls in
    let decls2 :=
      if foundListen found then decls1 ++ [DFunc listenFuncDecl]
      else decls1 in
    Ok {| Imports := Imports astFile1; Decls := decls2 |}.

(** ** The operating system *)

(** What [os.Lstat] and the directory listing show under a path.  The
    entries of a directory are in the order in which the walk visits them
    (by name).  A directory with a [readErr] cannot be listed: its entries
    are on disk but out of reach.  The errors of the file system are
    given by their messages. *)
#[warnings="-register-all"] Inductive Node : Type :=
| NFile (name : string)
| NDir (name : string) (readErr : option string) (entries : list Node)
| NBroken (name : string) (lstatErr : string).

Definition nodeName (n : Node) : string :=
  match n with
  | NFile name => name
  | NDir name _ _ => name
  | NBroken name _ => name
  end.

Record World : Type := mkWorld {
  (* the regular files that can be read, by path, with their content *)
  files : gmap string string;
  (* the combined output and the error of the command go env GOROOT *)
  goEnvGOROOT : string * option error;
  (* the tree that a walk from a path sees *)
  tree : string -> Node;
  (* os.TempDir *)
  TempDir : string;
  (* the random texts that os.CreateTemp draws, and how many were drawn *)
  nextRandom : nat -> string;
  drawn : nat;
  (* failures of creating and of writing a file, by path *)
  openErr : string -> option error;
  writeErr : string -> option error
}.

Definition withFiles (w : World) (fs : gmap string string) : World :=
  {| files := fs; goEnvGOROOT := goEnvGOROOT w; tree := tree w;
     TempDir := TempDir w; nextRandom := nextRandom w; drawn := drawn w;
     openErr := openErr w; writeErr := writeErr w |}.

Definition withDrawn (w : World) (n : nat) : World :=
  {| files := files w; goEnvGOROOT := goEnvGOROOT w; tree := tree w;
     TempDir := TempDir w; nextRandom := nextRandom w; drawn := n;
     openErr := openErr w; writeErr := writeErr w |}.

(** [os.ReadFile] *)
Definition os_ReadFile (w : World) (name : string) : result string :=
  match files w !! name with
  | Some content => Ok content
  | None =>
      Err (errorString ("open " +:+ name +:+ ": no such file or directory"))
  end.

(** [os.Remove] of a file. *)
Definition os_Remove (name : string) (w : World) : World * option error :=
  match files w !! name with
  | Some _ => (withFiles w (delete name (files w)), None)
  | None =>
      (w, Some (errorString
                  ("remove " +:+ name +:+ ": no such file or directory")))
  end.

(** ** [filepath.Walk] *)

Record FileInfo : Type := mkFileInfo {
  Info_Name : string;
  IsDir : bool
}.

(** The [info] and [err] arguments of a [WalkFunc]: the walk passes a valid
    [info] without an error, a valid [info] with the error of listing that
    directory, or no [info] with the error of [Lstat]. *)
Inductive WalkArg : Type :=
| Visit (info : FileInfo)
| ReadDirFailed (info : FileInfo) (err : error)
| LstatFailed (err : error).

Definition WalkFunc (S : Type) : Type :=
  string -> WalkArg -> S -> S * option error.

Definition isDirNode (n : Node) : bool :=
  match n with NDir _ _ _ => true | _ => false end.

Definition isSkipDir (e : error) : bool :=
  match e with SkipDir => true | _ => false end.

(** The loop of the unexported [walk] of path/filepath over the names of
    the directory [path]; [walkChild] is the recursive call. *)
Definition walkNames {S : Type}
  (walkChild : string -> Node -> S -> S * option error)
  (walkFn : WalkFunc S) (path : string)
  : list Node -> S -> S * option error :=
  fix loop (names : list Node) (s : S) {struct names} : S * option error :=
    match names with
    | [] => (s, None)
    | child :: rest =>
        let filename := Join [path; nodeName child] in
        match child with
        | NBroken _ err =>
            match walkFn filename (LstatFailed (errorString err)) s with
            | (s', Some e) =>
                if isSkipDir e then loop rest s' else (s', Some e)
            | (s', None) => loop rest s'
            end
        | NFile _ =>
            match walkChild filename child s with
            | (s', Some e) => (s', Some e)
            | (s', None) => loop rest s'
            end
        | NDir _ _ _ =>
            match walkChild filename child s with
            | (s', Some e) =>
                if isSkipDir e then loop rest s' else (s', Some e)
            | (s', None) => loop rest s'
            end
        end
    end.

(** The unexported [walk] of path/filepath; [n] is what [lstat] returned
    for [path]. *)
Fixpoint walk {S : Type} (path : string) (n : Node) (walkFn : WalkFunc S)
  (s : S) {struct n} : S * option error :=
  match n with
  | NFile name => walkFn path (Visit (mkFileInfo name false)) s
  | NBroken name err => walkFn path (LstatFailed (errorString err)) s
  | NDir name readErr entries =>
      let info := mkFileInfo name true in
      match readErr with
      | Some err => walkFn path (ReadDirFailed info (errorString err)) s
      | None =>
          match walkFn path (Visit info) s with
          | (s1, Some err1) => (s1, Some err1)
          | (s1, None) =>
              walkNames (fun filename child s => walk filename child walkFn s)
                walkFn path entries s1
          end
      end
  end.

(** [filepath.Walk] *)
Definition Walk {S : Type} (root : string) (n : Node) (fn : WalkFunc S)
  (s : S) : S * option error :=
  let '(s', err) := walk root n fn s in
  match err with
  | Some SkipDir | Some SkipAll => (s', None)
  | _ => (s', err)
  end.

(** ** Source discovery *)

(** [netPkgDir] *)
Definition netPkgDir (w : World) : string * option error :=
  match goEnvGOROOT w with
  | (out, Some err) => (out, Some (wrap "failed to get GOROOT" err))
  | (out, None) => (Join [TrimSpace out; "src"; "net"], None)
  end.

(** The function literal that [netPkgGoFiles] hands to [filepath.Walk];
    the state is the slice [ret]. *)
Definition collectGoFile : WalkFunc (list string) :=
  fun path arg ret =>
    match arg with
    | ReadDirFailed _ err | LstatFailed err => (ret, Some err)
    | Visit info =>
        if IsDir info || negb (String.eqb (Ext (Info_Name info)) ".go")
        then (ret, None)
        else if HasSuffix (Info_Name info) "_test.go" then (ret, None)
        else (ret ++ [path], None)
    end.

(** [netPkgGoFiles]: the error of the walk is dropped. *)
Definition netPkgGoFiles (w : World) : result (list string) :=
  match netPkgDir w with
  | (_, Some err) => Err err
  | (dir, None) =>
      let '(ret, _) := Walk dir (tree w dir) collectGoFile [] in
      Ok ret
  end.

(** The file names that the function literal of [netPkgGoFiles] keeps. *)
Definition isGoSource (name : string) : bool :=
  String.eqb (Ext name) ".go" && negb (HasSuffix name "_test.go").

(** The entries that a walk from a node meets, in the order of the walk: a
    file, a directory that can be listed (followed by what is under it), or
    an entry on which [Lstat] or the listing fails.  What lies under a
    directory that cannot be listed is not met. *)
Inductive Entry : Type :=
| EFile (path name : string)
| EDir (path : string)
| EFail (path msg : string).

Fixpoint entriesOf (path : string) (n : Node) : list Entry :=
  match n with
  | NFile name => [EFile path name]
  | NBroken _ err => [EFail path err]
  | NDir _ (Some err) _ => [EFail path err]
  | NDir _ None entries =>
      EDir path
      :: flat_map (fun child => entriesOf (Join [path; nodeName child]) child)
           entries
  end.

(** Every file under a node, whether a walk can reach it or not. *)
Fixpoint filesUnder (path : string) (n : Node) : list (string * string) :=
  match n with
  | NFile name => [(path, name)]
  | NBroken _ _ => []
  | NDir _ _ entries =>
      flat_map (fun child => filesUnder (Join [path; nodeName child]) child)
        entries
  end.

(** The message of the first failing entry. *)
Fixpoint firstFailure (es : list Entry) : option string :=
  match es with
  | [] => None
  | EFail _ msg :: _ => Some msg
  | _ :: rest => firstFailure rest
  end.

(** The entries ahead of the first failing one. *)
Fixpoint beforeFailure (es : list Entry) : list Entry :=
  match es with
  | [] => []
  | EFail _ _ :: _ => []
  | e :: rest => e :: beforeFailure rest
  end.

Definition goFileOf (e : Entry) : list string :=
  match e with
  | EFile path name => if isGoSource name then [path] else []
  | _ => []
  end.

(** The paths of the Go sources among the entries. *)
Definition goFilesOf (es : list Entry) : list string := flat_map goFileOf es.

(** The path of a file given with its name, when the name is kept. *)
Definition goFileOfPair (file : string * string) : list string :=
  if isGoSource file.2 then [file.1] else [].

(** What the walk of one node does with the function literal of
    [netPkgGoFiles]. *)
Definition walkCollects (n : Node) : Prop :=
  forall (path : string) (ret : list string),
    walk path n collectGoFile ret
    = (ret ++ goFilesOf (beforeFailure (entriesOf path n)),
       errorString <$> firstFailure (entriesOf path n)).

(** One turn of the loop, on an entry for which [lstat] succeeds. *)
(** ** Temporary files *)

Definition errPatternHasSeparator : error :=
  errorString "pattern contains path separator".

Definition ErrExist : error := errorString "file already exists".

(** The text before and the text after the last star of [s]; [None] when
    [s] has no star. *)
Fixpoint splitLastStar (s : string) : option (string * string) :=
  match s with
  | EmptyString => None
  | String c s' =>
      match splitLastStar s' with
      | Some (pre, suf) => Some (String c pre, suf)
      | None => if Ascii.eqb c "*"%char then Some ("", s') else None
      end
  end.

(** The unexported [prefixAndSuffix] of package os. *)
Definition prefixAndSuffix (pattern : string) : result (string * string) :=
  if existsb (Ascii.eqb "/"%char) (list_ascii_of_string pattern)
  then Err errPatternHasSeparator
  else
    match splitLastStar pattern with
    | Some (prefix, suffix) => Ok (prefix, suffix)
    | None => Ok (pattern, "")
    end.

(** The unexported [joinPath] of package os. *)
Definition joinPath (dir name : string) : string :=
  if HasSuffix dir "/" then dir +:+ name else dir +:+ "/" +:+ name.

(** The retry loop of [os.CreateTemp]; [tries] is the number of attempts
    left.  A name is taken when the world has a file of that name
    (the exclusive open, for which [IsExist] holds). *)
Fixpoint createTempLoop (tries : nat) (prefix suffix : string) (w : World)
  : result string * World :=
  match tries with
  | 0 => (Err (wrap ("createtemp " +:+ prefix +:+ "*" +:+ suffix) ErrExist), w)
  | S tries' =>
      let name := prefix +:+ nextRandom w (drawn w) +:+ suffix in
      let w1 := withDrawn w (S (drawn w)) in
      match files w1 !! name with
      | Some _ => createTempLoop tries' prefix suffix w1
      | None =>
          match openErr w1 name with
          | Some err => (Err err, w1)
          | None => (Ok name, withFiles w1 (<[name := ""]> (files w1)))
          end
      end
  end.

(** [os.CreateTemp] with the empty [dir]; the result is the name of the
    created and still open file. *)
Definition os_CreateTemp (pattern : string) (w : World)
  : result string * World :=
  match prefixAndSuffix pattern with
  | Err err => (Err (wrap ("createtemp " +:+ pattern) err), w)
  | Ok (prefix, suffix) =>
      createTempLoop (100 * 100) (joinPath (TempDir w) prefix) suffix w
  end.

(** [File.Write] on the file created under [name]: the bytes go
    after what the file holds. *)
Definition file_Write (name content : string) (w : World)
  : option error * World :=
  match writeErr w name with
  | Some err => (Some err, w)
  | None =>
      match files w !! name with
      | Some old => (None, withFiles w (<[name := old +:+ content]> (files w)))
      | None => (None, w)
      end
  end.

(** ** The overlay handle *)

Record ReplacedNetSource : Type := mkReplacedNetSource {
  Path : string;
  Content : string
}.

Record OverlayFile : Type := mkOverlayFile {
  overlayPath : string;            (* the field path *)
  tmpFilePaths : list string
}.

(** [OverlayFile.Close]: the errors of [os.Remove] are dropped and
    nothing is returned. *)
Definition Close (f : OverlayFile) (w : World) : World :=
  let '(w1, _) := os_Remove (overlayPath f) w in
  fold_left (fun w path => let '(w', _) := os_Remove path w in w')
    (tmpFilePaths f) w1.

Definition anyMatcher (matchers : list (FuncDecl -> bool)) (decl : Decl)
  : bool :=
  match decl with
  | DFunc funcDecl => existsb (fun matcher => matcher funcDecl) matchers
  | _ => false
  end.

Section Pipeline.

(** [parser.ParseFile(fset, filename, src, 0)] *)
Variable ParseFile : string -> string -> result File.

(** [format.Node] into a fresh buffer. *)
Variable format_Node : File -> result string.

(** [json.Marshal] on the value the program hands it, a map with string
    keys whose values are string maps. *)
Variable json_Marshal : gmap string (gmap string string) -> result string.

(** *** The matching pass *)

(** The two inner loops of [findSourcePaths], over the declarations of one
    file and over the matchers. *)
Definition matchDecls (netPkgFile : string)
  (matchers : list (FuncDecl -> bool)) (decls : list Decl)
  (sourcePathMap : gmap string unit) : gmap string unit :=
  fold_left
    (fun m decl =>
       match decl with
       | DFunc funcDecl =>
           fold_left
             (fun m (matcher : FuncDecl -> bool) =>
                if matcher funcDecl then <[netPkgFile := tt]> m else m)
             matchers m
       | _ => m
       end)
    decls sourcePathMap.

(** One iteration of the outer loop. *)
Definition scanFile (w : World) (matchers : list (FuncDecl -> bool))
  (sourcePathMap : gmap string unit) (netPkgFile : string)
  : gmap string unit :=
  match os_ReadFile w netPkgFile with
  | Err _ => sourcePathMap
  | Ok src =>
      match ParseFile netPkgFile src with
      | Err _ => sourcePathMap
      | Ok file => matchDecls netPkgFile matchers (Decls file) sourcePathMap
      end
  end.

(** A candidate is kept when it can be read and parsed and one of its
    function declarations satisfies one of the matchers. *)
Definition fileMatches (w : World) (matchers : list (FuncDecl -> bool))
  (netPkgFile : string) : bool :=
  match os_ReadFile w netPkgFile with
  | Err _ => false
  | Ok src =>
      match ParseFile netPkgFile src with
      | Err _ => false
      | Ok file => existsb (anyMatcher matchers) (Decls file)
      end
  end.

(** [sort.Strings]: the increasing arrangement of the strings, bytewise. *)
Definition sort_Strings (paths : list string) : list string :=
  merge_sort String.le paths.

(** [findSourcePaths].  The keys of the map come out in some order and are
    then sorted. *)
Definition findSourcePaths (w : World) (netPkgFiles : list string)
  (matchers : list (FuncDecl -> bool)) : list string :=
  let sourcePathMap := fold_left (scanFile w matchers) netPkgFiles ∅ in
  let paths := (map_to_list sourcePathMap).*1 in
  sort_Strings paths.

(** *** The rewriter *)

(** [createReplacedNetSource] *)
Definition createReplacedNetSource (w : World) (path : string)
  : result string :=
  match os_ReadFile w path with
  | Err err => Err (wrap ("failed to read file " +:+ path) err)
  | Ok src =>
      match ParseFile (Base path) src with
      | Err err => Err (wrap ("failed to parse file " +:+ path) err)
      | Ok astFile =>
          match rewriteFile path astFile with
          | Err err => Err err
          | Ok astFile' =>
              match format_Node astFile' with
              | Err err => Err (wrap "failed to format without comment AST" err)
              | Ok buf => Ok buf
              end
          end
      end
  end.

(** The loop of [GetReplacedNetSources] over the working set. *)
Fixpoint replaceAll (w : World) (paths : list string)
  (ret : list ReplacedNetSource) : result (list ReplacedNetSource) :=
  match paths with
  | [] => Ok ret
  | path :: rest =>
      match createReplacedNetSource w path with
      | Err err => Err err
      | Ok content =>
          replaceAll w rest (ret ++ [{| Path := path; Content := content |}])
      end
  end.

(** [GetReplacedNetSources] *)
Definition GetReplacedNetSources (w : World)
  : result (list ReplacedNetSource) :=
  match netPkgGoFiles w with
  | Err err => Err err
  | Ok netPkgFiles =>
      let paths :=
        findSourcePaths w netPkgFiles [dialMatcher; listenMatcher] in
      if Nat.eqb (length paths) 0 then
        Err (errors_New "failed to find net package source files")
      else replaceAll w paths []
  end.

(** *** The overlay builder *)

(** The loop of [CreateOverlayFile] over the sources. *)
Fixpoint writeSources (srcs : list ReplacedNetSource)
  (tmpFilePaths : list string) (overlayMap : gmap string string) (w : World)
  : result (list string * gmap string string) * World :=
  match srcs with
  | [] => (Ok (tmpFilePaths, overlayMap), w)
  | src :: rest =>
      match os_CreateTemp (Base (Path src) +:+ "_") w with
      | (Err err, w1) => (Err (wrap "failed to create temp file" err), w1)
      | (Ok tmpFile, w1) =>
          match file_Write tmpFile (Content src) w1 with
          | (Some err, w2) =>
              (Err (wrap "failed to write file content" err), w2)
          | (None, w2) =>
              writeSources rest (tmpFilePaths ++ [tmpFile])
                (<[Path src := tmpFile]> overlayMap) w2
          end
      end
  end.

(** [CreateOverlayFile] *)
Definition CreateOverlayFile (srcs : list ReplacedNetSource) (w : World)
  : result OverlayFile * World :=
  match writeSources srcs [] ∅ w with
  | (Err err, w1) => (Err err, w1)
  | (Ok (tmpFilePaths, overlayMap), w1) =>
      match os_CreateTemp "wasi_go_net_overlay" w1 with
      | (Err err, w2) => (Err (wrap "failed to create temp file" err), w2)
      | (Ok tmpFile, w2) =>
          match json_Marshal {["Replace" := overlayMap]} with
          | Err err =>
              (Err (wrap "failed to create overlay file content" err), w2)
          | Ok content =>
              match file_Write tmpFile content w2 with
              | (Some err, w3) =>
                  (Err (wrap "failed to write file content" err), w3)
              | (None, w3) =>
                  (Ok {| overlayPath := tmpFile;
                         tmpFilePaths := tmpFilePaths |}, w3)
              end
          end
      end
  end.

(** [CreateReplacedNetPkgOverlayFile] *)
Definition CreateReplacedNetPkgOverlayFile (w : World)
  : result OverlayFile * World :=
  match GetReplacedNetSources w with
  | Err err => (Err err, w)
  | Ok srcs => CreateOverlayFile srcs w
  end.

End Pipeline.

(** ** Further vocabulary for the properties *)

(** The forward declarations that the rewriter appends, given the two
    flags: the one for DialContext first. *)
Definition stubsFor (found : Found) : list Decl :=
  (if foundDialContext found then [DFunc dialContextFuncDecl] else [])
  ++ (if foundListen found then [DFunc listenFuncDecl] else []).

(** The flags that the rewriting loop ends with on these declarations. *)
Definition foundIn (decls : list Decl) : Found :=
  {| foundDialContext := existsb isDialDecl decls;
     foundListen := existsb isListenDecl decls |}.

Definition isFuncNamed (name : string) (decl : Decl) : bool :=
  match decl with
  | DFunc funcDecl => String.eqb (Name funcDecl) name
  | _ => false
  end.

(** The number of function declarations of a name. *)
Definition countNamed (name : string) (decls : list Decl) : nat :=
  length (List.filter (isFuncNamed name) decls).

(** * Sample inputs *)

Definition newline : string := String (ascii_of_nat 10) "".

Definition dialParams (c n a : string) : FieldList :=
  [ {| Names := [c]; Type_ := SelectorExpr (Ident "context") "Context" |};
    {| Names := [n; a]; Type_ := Ident "string" |} ].

Definition twoResults (first : string) : option FieldList :=
  Some [ {| Names := []; Type_ := Ident first |};
         {| Names := []; Type_ := Ident "error" |} ].

(** func (recvNames *recvType) DialContext(c context.Context, n, a string) (Conn, error) *)
Definition dialMethod (recvNames : list string) (recvType c n a : string)
  : FuncDecl :=
  {| Doc := [];
     Recv := Some [ {| Names := recvNames; Type_ := StarExpr (Ident recvType) |} ];
     Name := "DialContext";
     FType := {| Params := dialParams c n a; Results := twoResults "Conn" |};
     Body := Some [OtherStmt "return nil, nil"] |}.

Definition dialerMethod : FuncDecl :=
  dialMethod ["d"] "Dialer" "ctx" "network" "address".

(** func (c *Client) DialContext(ctx context.Context, network, address string) (Conn, error) *)
Definition clientMethod : FuncDecl :=
  dialMethod ["c"] "Client" "ctx" "network" "address".

(** func (d *Dialer) DialContext(c context.Context, netw, addr string) (Conn, error) *)
Definition renamedMethod : FuncDecl :=
  dialMethod ["d"] "Dialer" "c" "netw" "addr".

(** The same method with the receiver written as the bare type, a pointer
    to Dialer, without a name. *)
Definition unnamedRecvMethod : FuncDecl :=
  dialMethod [] "Dialer" "ctx" "network" "address".

(** func name(n, a string) (result, error) *)
Definition freeFunc (name n a res : string) : FuncDecl :=
  {| Doc := [];
     Recv := None;
     Name := name;
     FType := {| Params := [ {| Names := [n; a]; Type_ := Ident "string" |} ];
                 Results := twoResults res |};
     Body := Some [OtherStmt "return nil, nil"] |}.

Definition listenFunc : FuncDecl :=
  freeFunc "Listen" "network" "address" "Listener".

Definition lookupFunc : FuncDecl :=
  freeFunc "LookupPort" "network" "service" "int".

Definition quoted (s : string) : string := dquote +:+ s +:+ dquote.

Definition plainImport (pkg : string) : ImportSpec :=
  {| ImportName := None; PathValue := quoted pkg |}.

Definition importDecl (imps : list ImportSpec) : Decl :=
  DGen {| Tok := IMPORT; Specs := map SImport imps |}.

Definition typeDecl (src : string) : Decl :=
  DGen {| Tok := TYPE; Specs := [SOther src] |}.

Definition sourceFile (imps : list ImportSpec) (decls : list Decl) : File :=
  {| Imports := imps;
     Decls := match imps with
              | [] => decls
              | _ => importDecl imps :: decls
              end |}.

Definition dialFile : File :=
  sourceFile [plainImport "context"; plainImport "time"]
    [typeDecl "Dialer struct{}"; DFunc dialerMethod].

Definition clientFile : File :=
  sourceFile [plainImport "context"]
    [DFunc dialerMethod; typeDecl "Client struct{}"; DFunc clientMethod].

Definition renamedFile : File :=
  sourceFile [plainImport "context"] [DFunc renamedMethod].

Definition unnamedFile : File :=
  sourceFile [plainImport "context"] [DFunc unnamedRecvMethod].

Definition listenFile : File :=
  sourceFile [] [DFunc listenFunc; typeDecl "Listener interface{}"].


Definition lookupFile : File :=
  sourceFile [plainImport "sort"] [DFunc lookupFunc].

(** A parser for the sample sources: a source text is the name of its
    tree. *)
Definition sampleParse (filename src : string) : result File :=
  if String.eqb src "dial" then Ok dialFile
  else if String.eqb src "client" then Ok clientFile
  else if String.eqb src "renamed" then Ok renamedFile
  else if String.eqb src "unnamed" then Ok unnamedFile
  else if String.eqb src "listen" then Ok listenFile
  else if String.eqb src "lookup" then Ok lookupFile
  else Err (errorString (filename +:+ ":1:1: expected 'package'")).

Definition declLine (decl : Decl) : string :=
  match decl with
  | DFunc funcDecl => "func " +:+ Name funcDecl
  | DGen genDecl => if isImportTok (Tok genDecl) then "import" else "decl"
  | DBad => "bad"
  end.

(** A printer for the sample trees: one line per declaration. *)
Definition sampleFormat (astFile : File) : result string :=
  Ok (String.concat newline (map declLine (Decls astFile))).

(** An encoder for the sample manifests: the keys of the inner maps. *)
Definition sampleMarshal (v : gmap string (gmap string string))
  : result string :=
  Ok (String.concat ";"
        (map (fun '(field, m) =>
                field +:+ "=" +:+ String.concat "," (map_to_list m).*1)
           (map_to_list v))).

Definition netDir : string := "/go/src/net".

Definition sampleTree (entries : list Node) (root : string) : Node :=
  NDir "net" None entries.

Definition sampleWorld (fs : gmap string string) (entries : list Node)
  : World :=
  {| files := fs;
     goEnvGOROOT := ("/go" +:+ newline, None);
     tree := sampleTree entries;
     TempDir := "/tmp";
     nextRandom := fun n => String.concat "" (replicate (S n) "7");
     drawn := 0;
     openErr := fun _ => None;
     writeErr := fun _ => None |}.

(** A world in which the go command cannot be run. *)
Definition noGoWorld : World :=
  {| files := {[ "/home/user/notes" := "kept" ]};
     goEnvGOROOT := ("", Some (errorString "exec: go: executable file not found in $PATH"));
     tree := sampleTree [];
     TempDir := "/tmp";
     nextRandom := fun n => String.concat "" (replicate (S n) "7");
     drawn := 0;
     openErr := fun _ => None;
     writeErr := fun _ => None |}.

(** A world in which the write to the second temporary file fails. *)
Definition fullDiskWorld : World :=
  {| files := {[ "/home/user/notes" := "kept" ]};
     goEnvGOROOT := ("/go" +:+ newline, None);
     tree := sampleTree [];
     TempDir := "/tmp";
     nextRandom := fun n => String.concat "" (replicate (S n) "7");
     drawn := 0;
     openErr := fun _ => None;
     writeErr := fun name =>
       if String.eqb name "/tmp/sock.go_77"
       then Some (errorString "write /tmp/sock.go_77: no space left on device")
       else None |}.

Definition twoSources : list ReplacedNetSource :=
  [ {| Path := "/go/src/net/dial.go"; Content := "package net // dial" |};
    {| Path := "/go/src/net/sock.go"; Content := "package net // listen" |} ].

Definition samePathSources : list ReplacedNetSource :=
  [ {| Path := "/go/src/net/dial.go"; Content := "package net // first" |};
    {| Path := "/go/src/net/dial.go"; Content := "package net // second" |} ].

(** * Properties *)

(** ** The rewriting loop *)

Lemma dial_listen_exclusive (funcDecl : FuncDecl) :
  isDialCase funcDecl = true -> isListenCase funcDecl = false.
Proof.
  unfold isDialCase, isListenCase.
  intros [Hname _]%andb_true_iff.
  apply String.eqb_eq in Hname. rewrite Hname. reflexivity.
Qed.

Lemma replaceDecl_spec (decl : Decl) (found : Found) :
  replaceDecl decl found =
    (replaced decl,
     {| foundDialContext := foundDialContext found || isDialDecl decl;
        foundListen := foundListen found || isListenDecl decl |}).
Proof.
  destruct found as [fd fl].
  destruct decl as [funcDecl | g | ]; unfold replaced; simpl;
    rewrite ?orb_false_r; try reflexivity.
  destruct (isDialCase funcDecl) eqn:Hd.
  - rewrite (dial_listen_exclusive _ Hd), orb_true_r, orb_false_r. reflexivity.
  - destruct (isListenCase funcDecl);
      rewrite ?orb_true_r, ?orb_false_r; reflexivity.
Qed.

Lemma replaceDecls_spec (decls : list Decl) (found : Found) :
  replaceDecls decls found =
    (map replaced decls,
     {| foundDialContext := foundDialContext found || existsb isDialDecl decls;
        foundListen := foundListen found || existsb isListenDecl decls |}).
Proof.
  revert found. induction decls as [| decl rest IH]; intros found.
  - destruct found; simpl. rewrite !orb_false_r. reflexivity.
  - simpl. rewrite replaceDecl_spec, IH. simpl.
    rewrite !orb_assoc. reflexivity.
Qed.

(** The rewriter, as a function of the declarations after the import
    step. *)
Lemma rewriteFile_unfold (path : string) (astFile : File) :
  rewriteFile path astFile =
    let decls := Decls (addUnsafeImport astFile) in
    let d := existsb isDialDecl decls in
    let l := existsb isListenDecl decls in
    if negb d && negb l then
      Err (errorString
             ("no target functions (DialContext or Listen) found in " +:+ path))
    else
      Ok {| Imports := Imports (addUnsafeImport astFile);
            Decls := map replaced decls
                     ++ (if d then [DFunc dialContextFuncDecl] else [])
                     ++ (if l then [DFunc listenFuncDecl] else []) |}.
Proof.
  unfold rewriteFile. rewrite replaceDecls_spec. simpl.
  destruct (existsb isDialDecl _), (existsb isListenDecl _); simpl;
    rewrite <- ?app_assoc, ?app_nil_r; reflexivity.
Qed.




Lemma appendSpec_DFunc (imp : ImportSpec) (decl : Decl) (funcDecl : FuncDecl) :
  decl = DFunc funcDecl -> appendSpec imp decl = DFunc funcDecl.
Proof. intros ->. reflexivity. Qed.

Lemma addUnsafeImport_lookup_func
  (astFile : File) (i : nat) (funcDecl : FuncDecl) :
  Decls astFile !! i = Some (DFunc funcDecl) ->
  Decls (addUnsafeImport astFile) !! (importShift astFile + i)
    = Some (DFunc funcDecl).
Proof.
  intros Hi. unfold addUnsafeImport, importShift.
  destruct (hasUnsafeImport (Imports astFile)); [exact Hi |].
  destruct (lastImportDecl (Decls astFile)) as [j |]; simpl; [| exact Hi].
  destruct (decide (j = i)) as [-> | Hne].
  - rewrite list_lookup_alter_eq, Hi. reflexivity.
  - rewrite list_lookup_alter_ne by exact Hne. exact Hi.
Qed.

(** ** The matching pass *)

Section Matching.

Variable ParseFile : string -> string -> result File.

Lemma matchers_fold (netPkgFile : string) (funcDecl : FuncDecl)
  (matchers : list (FuncDecl -> bool)) (m : gmap string unit) :
  fold_left
    (fun m (matcher : FuncDecl -> bool) =>
       if matcher funcDecl then <[netPkgFile := tt]> m else m)
    matchers m
  = if existsb (fun matcher => matcher funcDecl) matchers
    then <[netPkgFile := tt]> m else m.
Proof.
  revert m. induction matchers as [| matcher rest IH]; intros m; simpl.
  - reflexivity.
  - rewrite IH. destruct (matcher funcDecl); simpl; [| reflexivity].
    rewrite insert_insert_eq. destruct (existsb _ rest); reflexivity.
Qed.

Lemma matchDecls_spec (netPkgFile : string)
  (matchers : list (FuncDecl -> bool)) (decls : list Decl)
  (m : gmap string unit) :
  matchDecls netPkgFile matchers decls m
  = if existsb (anyMatcher matchers) decls
    then <[netPkgFile := tt]> m else m.
Proof.
  unfold matchDecls. revert m.
  induction decls as [| decl rest IH]; intros m; simpl.
  - reflexivity.
  - rewrite IH. destruct decl as [funcDecl | g |]; simpl; try reflexivity.
    rewrite matchers_fold.
    destruct (existsb (fun matcher => matcher funcDecl) matchers); simpl;
      [| reflexivity].
    rewrite insert_insert_eq. destruct (existsb _ rest); reflexivity.
Qed.

Lemma scanFile_spec (w : World) (matchers : list (FuncDecl -> bool))
  (m : gmap string unit) (netPkgFile : string) :
  scanFile ParseFile w matchers m netPkgFile
  = if fileMatches ParseFile w matchers netPkgFile
    then <[netPkgFile := tt]> m else m.
Proof.
  unfold scanFile, fileMatches.
  destruct (os_ReadFile w netPkgFile) as [src | e]; [| reflexivity].
  destruct (ParseFile netPkgFile src) as [file | e]; [| reflexivity].
  apply matchDecls_spec.
Qed.

Lemma scan_lookup (w : World) (matchers : list (FuncDecl -> bool))
  (netPkgFiles : list string) (m : gmap string unit) (path : string) :
  is_Some (fold_left (scanFile ParseFile w matchers) netPkgFiles m !! path)
  <-> is_Some (m !! path)
      \/ (path ∈ netPkgFiles /\ fileMatches ParseFile w matchers path = true).
Proof.
  revert m. induction netPkgFiles as [| f rest IH]; intros m; simpl.
  - split; [auto | intros [H | [H _]]; [exact H | inversion H]].
  - rewrite IH, scanFile_spec. rewrite elem_of_cons.
    destruct (fileMatches ParseFile w matchers f) eqn:Hf.
    + rewrite lookup_insert_is_Some. split.
      * intros [[-> | [_ H]] | [H1 H2]]; auto.
      * intros [H | [[-> | H1] H2]]; auto.
        destruct (decide (f = path)); auto.
    + split.
      * intros [H | [H1 H2]]; auto.
      * intros [H | [[-> | H1] H2]]; auto. congruence.
Qed.

Lemma sort_Strings_Permutation (paths : list string) :
  sort_Strings paths ≡ₚ paths.
Proof. apply merge_sort_Permutation. Qed.

(** The working set holds exactly the candidates that match. *)
Lemma findSourcePaths_elem (w : World) (netPkgFiles : list string)
  (matchers : list (FuncDecl -> bool)) (path : string) :
  path ∈ findSourcePaths ParseFile w netPkgFiles matchers
  <-> path ∈ netPkgFiles /\ fileMatches ParseFile w matchers path = true.
Proof.
  unfold findSourcePaths.
  rewrite sort_Strings_Permutation.
  rewrite list_elem_of_fmap. split.
  - intros ([k []] & -> & Hin). apply elem_of_map_to_list in Hin. simpl.
    assert (Hs : is_Some
      (fold_left (scanFile ParseFile w matchers) netPkgFiles ∅ !! k))
      by (rewrite Hin; eauto).
    apply scan_lookup in Hs as [Hs | Hs]; [| exact Hs].
    rewrite lookup_empty in Hs. destruct Hs as [? Hs]. discriminate.
  - intros H.
    assert (Hs : is_Some
      (fold_left (scanFile ParseFile w matchers) netPkgFiles ∅ !! path))
      by (apply scan_lookup; right; exact H).
    destruct Hs as [[] Hs]. exists (path, tt). split; [reflexivity |].
    apply elem_of_map_to_list. exact Hs.
Qed.

Lemma findSourcePaths_NoDup (w : World) (netPkgFiles : list string)
  (matchers : list (FuncDecl -> bool)) :
  NoDup (findSourcePaths ParseFile w netPkgFiles matchers).
Proof.
  unfold findSourcePaths. rewrite sort_Strings_Permutation.
  apply NoDup_fst_map_to_list.
Qed.

Lemma findSourcePaths_sorted (w : World) (netPkgFiles : list string)
  (matchers : list (FuncDecl -> bool)) :
  StronglySorted String.le
    (findSourcePaths ParseFile w netPkgFiles matchers).
Proof.
  unfold findSourcePaths, sort_Strings.
  apply StronglySorted_merge_sort; apply _.
Qed.

End Matching.

(** ** The working set of the matching pass *)

(** C7. Whatever the candidates (a path may be listed twice, a file may
    satisfy both matchers or hold several matching declarations), the
    working set that [findSourcePaths] returns holds no path twice, is in
    increasing bytewise order, and holds exactly the candidates that
    match. *)
Theorem C7_working_set_deduplicated_and_sorted
  (ParseFile : string -> string -> result File) (w : World)
  (netPkgFiles : list string) (matchers : list (FuncDecl -> bool)) :
  let paths := findSourcePaths ParseFile w netPkgFiles matchers in
  NoDup paths
  /\ StronglySorted String.le paths
  /\ (forall i j p q, i < j -> paths !! i = Some p -> paths !! j = Some q ->
        String.ltb p q = true)
  /\ (forall path, path ∈ paths <->
        path ∈ netPkgFiles /\ fileMatches ParseFile w matchers path = true).
Proof.
  intros paths.
  assert (Hnd : NoDup paths) by apply findSourcePaths_NoDup.
  assert (Hs : StronglySorted String.le paths) by apply findSourcePaths_sorted.
  split; [exact Hnd |]. split; [exact Hs |].
  split; [| intros path; apply findSourcePaths_elem].
  - intros i j p q Hij Hi Hj.
    assert (Hle : String.le p q).
    { clear Hnd. revert i j Hij Hi Hj.
      induction Hs as [| x l Hs IH Hall]; intros i j Hij Hi Hj.
      - rewrite lookup_nil in Hi. discriminate.
      - destruct j as [| j]; [lia |]. simpl in Hj.
        destruct i as [| i]; simpl in Hi.
        + injection Hi as ->. rewrite Forall_forall in Hall.
          apply Hall. eapply list_elem_of_lookup_2. exact Hj.
        + apply (IH i j); [lia | assumption | assumption]. }
    assert (Hne : p <> q).
    { intros ->. assert (i = j) by (eapply NoDup_lookup; eauto). lia. }
    unfold String.le, String.leb in Hle. unfold String.ltb.
    destruct (String.compare p q) eqn:Hc.
    + apply String.compare_eq_iff in Hc. contradiction.
    + reflexivity.
    + contradiction.
Qed.

(** ** The dial matcher and unnamed receivers *)

Lemma unnamedReceiver_no_match (funcDecl : FuncDecl) :
  unnamedReceiver funcDecl = true ->
  dialMatcher funcDecl = false /\ listenMatcher funcDecl = false.
Proof.
  unfold unnamedReceiver, dialMatcher, listenMatcher.
  destruct (Recv funcDecl) as [[| recv0 [| ? ?]] |]; try discriminate.
  destruct (Names recv0); [| discriminate]. intros _.
  split; [destruct (negb _); reflexivity | apply andb_false_r].
Qed.

(** C10. The dial matcher of the discovery pass is false on a DialContext
    method whose single receiver parameter has no name, pointer to Dialer
    or not; a file whose function declarations are all such methods is not
    in the working set. *)
Theorem C10_unnamed_receiver_is_not_matched
  (ParseFile : string -> string -> result File) (w : World)
  (netPkgFiles : list string) (path src : string) (file : File)
  (funcDecl : FuncDecl) (recvType : Expr) :
  Name funcDecl = "DialContext" ->
  Recv funcDecl = Some [ {| Names := []; Type_ := recvType |} ] ->
  os_ReadFile w path = Ok src ->
  ParseFile path src = Ok file ->
  forallb onlyUnnamedReceivers (Decls file) = true ->
  dialMatcher funcDecl = false
  /\ path ∉ findSourcePaths ParseFile w netPkgFiles
              [dialMatcher; listenMatcher].
Proof.
  intros Hname Hrecv Hread Hparse Hall. split.
  - apply unnamedReceiver_no_match. unfold unnamedReceiver.
    rewrite Hrecv. reflexivity.
  - rewrite findSourcePaths_elem. intros [_ Hm].
    unfold fileMatches in Hm. rewrite Hread, Hparse in Hm.
    apply existsb_exists in Hm as (decl & Hin & Hdecl).
    rewrite forallb_forall in Hall. specialize (Hall decl Hin).
    destruct decl as [fd | g |]; simpl in Hdecl; try discriminate.
    simpl in Hall. apply unnamedReceiver_no_match in Hall as [Hd Hl].
    rewrite Hd, Hl in Hdecl. discriminate.
Qed.

(** The working set of three candidates, one of them listed twice and one
    without a target. *)
Lemma C7_working_set_witness :
  let paths :=
    findSourcePaths sampleParse
      (sampleWorld {[ "/go/src/net/dial.go" := "dial";
                      "/go/src/net/a.go" := "listen";
                      "/go/src/net/lookup.go" := "lookup" ]} [])
      ["/go/src/net/dial.go"; "/go/src/net/lookup.go"; "/go/src/net/a.go";
       "/go/src/net/dial.go"]
      [dialMatcher; listenMatcher] in
  paths = ["/go/src/net/a.go"; "/go/src/net/dial.go"] /\ NoDup paths.
Proof.
  split; [vm_compute; reflexivity |].
  apply (C7_working_set_deduplicated_and_sorted sampleParse).
Defined.

(** A file whose only function is the method with the bare receiver. *)
Lemma C10_unnamed_receiver_witness :
  dialMatcher unnamedRecvMethod = false
  /\ "/go/src/net/dial.go"
       ∉ findSourcePaths sampleParse
           (sampleWorld {[ "/go/src/net/dial.go" := "unnamed" ]} [])
           ["/go/src/net/dial.go"] [dialMatcher; listenMatcher].
Proof.
  apply (C10_unnamed_receiver_is_not_matched sampleParse
           (sampleWorld {[ "/go/src/net/dial.go" := "unnamed" ]} [])
           ["/go/src/net/dial.go"] "/go/src/net/dial.go" "unnamed"
           unnamedFile unnamedRecvMethod (StarExpr (Ident "Dialer")));
    vm_compute; reflexivity.
Defined.

(** ** What the rewriter does to each declaration *)

(** The listen matcher is the listen-predicate of the specification. *)
Lemma listenMatcher_iff (decl : FuncDecl) :
  listenMatcher decl = true <-> listenPredicate decl.
Proof.
  unfold listenMatcher, listenPredicate.
  rewrite andb_true_iff, String.eqb_eq.
  destruct (Recv decl); split; intros [H1 H2]; split;
    congruence || reflexivity.
Qed.

(** What the dial matcher accepts: the first receiver parameter has a name
    and its type is a pointer to Dialer; further receiver parameters are
    not looked at. *)
Lemma dialMatcher_true (decl : FuncDecl) :
  dialMatcher decl = true ->
  Name decl = "DialContext"
  /\ exists name names rest,
       Recv decl
       = Some (mkField (name :: names) (StarExpr (Ident "Dialer")) :: rest).
Proof.
  unfold dialMatcher.
  destruct (String.eqb_spec (Name decl) "DialContext") as [Hname | _];
    [simpl | discriminate].
  destruct (Recv decl) as [[| [names typ] rest] |]; try discriminate.
  simpl. destruct names as [| name names]; [discriminate |].
  destruct typ as [| [n | | | |] | | |]; try discriminate.
  intros ->%String.eqb_eq. split; [exact Hname | eauto].
Qed.

Lemma isDialCase_iff (funcDecl : FuncDecl) :
  isDialCase funcDecl = true
  <-> Name funcDecl = "DialContext" /\ Recv funcDecl <> None.
Proof.
  unfold isDialCase. rewrite andb_true_iff, String.eqb_eq.
  destruct (Recv funcDecl); split; intros [H1 H2]; split;
    congruence || reflexivity.
Qed.

Lemma isListenCase_iff (funcDecl : FuncDecl) :
  isListenCase funcDecl = true
  <-> Name funcDecl = "Listen" /\ Recv funcDecl = None.
Proof.
  unfold isListenCase. rewrite andb_true_iff, String.eqb_eq.
  destruct (Recv funcDecl); split; intros [H1 H2]; split;
    congruence || reflexivity.
Qed.

Lemma existsb_alter {A} (p : A -> bool) (f : A -> A) (i : nat) (l : list A) :
  (forall x, p (f x) = p x) -> existsb p (alter f i l) = existsb p l.
Proof.
  intros Hf. revert i. induction l as [| x l IH]; intros [| i]; simpl;
    try reflexivity.
  - rewrite Hf. reflexivity.
  - f_equal. apply IH.
Qed.

Lemma addUnsafeImport_existsb (p : Decl -> bool) (astFile : File) :
  (forall genDecl, p (DGen genDecl) = false) ->
  existsb p (Decls (addUnsafeImport astFile)) = existsb p (Decls astFile).
Proof.
  intros Hp. unfold addUnsafeImport.
  destruct (hasUnsafeImport (Imports astFile)); [reflexivity |].
  destruct (lastImportDecl (Decls astFile)) as [i |]; simpl.
  - apply existsb_alter. intros [fd | g |]; simpl; rewrite ?Hp; reflexivity.
  - rewrite Hp. reflexivity.
Qed.

Lemma noTargetDecl_Forall (decls : list Decl) :
  (forall funcDecl, DFunc funcDecl ∈ decls ->
     ~ (Name funcDecl = "DialContext" /\ Recv funcDecl <> None)
     /\ ~ (Name funcDecl = "Listen" /\ Recv funcDecl = None))
  <-> forallb noTargetDecl decls = true.
Proof.
  rewrite forallb_forall. split.
  - intros H decl Hin. apply list_elem_of_In in Hin.
    destruct decl as [fd | g |]; try reflexivity.
    destruct (H fd Hin) as [Hd Hl]. unfold noTargetDecl. simpl.
    rewrite <- isDialCase_iff in Hd. rewrite <- isListenCase_iff in Hl.
    destruct (isDialCase fd), (isListenCase fd); tauto.
  - intros H fd Hin. apply list_elem_of_In in Hin. specialize (H _ Hin).
    unfold noTargetDecl in H. simpl in H.
    rewrite <- isDialCase_iff, <- isListenCase_iff.
    destruct (isDialCase fd), (isListenCase fd); simpl in H;
      split; congruence.
Qed.

Lemma noTarget_flags (decls : list Decl) :
  forallb noTargetDecl decls = true ->
  existsb isDialDecl decls = false /\ existsb isListenDecl decls = false.
Proof.
  induction decls as [| decl rest IH]; simpl; [auto |].
  intros [Hd Hrest]%andb_true_iff. destruct (IH Hrest) as [-> ->].
  unfold noTargetDecl in Hd.
  destruct (isDialDecl decl), (isListenDecl decl); simpl in *;
    split; congruence.
Qed.

(** The declaration standing where the function declaration of index [i]
    stood is that declaration with the body the loop gives it. *)
Lemma rewriteFile_lookup (path : string) (astFile astFile' : File)
  (i : nat) (funcDecl : FuncDecl) :
  rewriteFile path astFile = Ok astFile' ->
  Decls astFile !! i = Some (DFunc funcDecl) ->
  Decls astFile' !! (importShift astFile + i)
    = Some (replaced (DFunc funcDecl)).
Proof.
  intros Hrw Hi. rewrite rewriteFile_unfold in Hrw. cbv zeta in Hrw.
  destruct (negb _ && negb _); [discriminate |].
  injection Hrw as <-. simpl.
  apply lookup_app_l_Some. rewrite list_lookup_fmap.
  rewrite (addUnsafeImport_lookup_func _ _ _ Hi). reflexivity.
Qed.

(** C5. A file that can be read and parsed and in which no function
    declaration is a method named DialContext or a function named Listen
    without receiver, so that no body is replaced, makes
    [createReplacedNetSource] return no content and the error that names
    the path. *)
Theorem C5_no_target_functions_error
  (ParseFile : string -> string -> result File)
  (format_Node : File -> result string)
  (w : World) (path src : string) (astFile : File) :
  os_ReadFile w path = Ok src ->
  ParseFile (Base path) src = Ok astFile ->
  (forall funcDecl, DFunc funcDecl ∈ Decls astFile ->
     ~ (Name funcDecl = "DialContext" /\ Recv funcDecl <> None)
     /\ ~ (Name funcDecl = "Listen" /\ Recv funcDecl = None)) ->
  createReplacedNetSource ParseFile format_Node w path
  = Err (errorString
           ("no target functions (DialContext or Listen) found in " +:+ path)).
Proof.
  intros Hread Hparse Hnone.
  unfold createReplacedNetSource. rewrite Hread, Hparse.
  rewrite rewriteFile_unfold. cbv zeta.
  apply noTargetDecl_Forall, noTarget_flags in Hnone as [Hd Hl].
  rewrite !addUnsafeImport_existsb by reflexivity.
  rewrite Hd, Hl. reflexivity.
Qed.

(** A file whose only function is LookupPort. *)
Lemma C5_no_target_functions_witness :
  createReplacedNetSource sampleParse sampleFormat
    (sampleWorld {[ "/go/src/net/lookup.go" := "lookup" ]} [])
    "/go/src/net/lookup.go"
  = Err (errorString
           "no target functions (DialContext or Listen) found in /go/src/net/lookup.go").
Proof.
  apply (C5_no_target_functions_error sampleParse sampleFormat
           (sampleWorld {[ "/go/src/net/lookup.go" := "lookup" ]} [])
           "/go/src/net/lookup.go" "lookup" lookupFile).
  - vm_compute; reflexivity.
  - vm_compute; reflexivity.
  - apply noTargetDecl_Forall. vm_compute; reflexivity.
Defined.

(** ** Which bodies are replaced, and by what *)

Lemma replaced_dial (funcDecl : FuncDecl) :
  isDialCase funcDecl = true ->
  replaced (DFunc funcDecl) = DFunc (setBody funcDecl dialContextBody).
Proof. intros H. unfold replaced. simpl. rewrite H. reflexivity. Qed.

Lemma replaced_listen (funcDecl : FuncDecl) :
  isListenCase funcDecl = true ->
  replaced (DFunc funcDecl) = DFunc (setBody funcDecl listenBody).
Proof.
  intros H. unfold replaced. simpl.
  destruct (isDialCase funcDecl) eqn:Hd.
  - apply dial_listen_exclusive in Hd. congruence.
  - rewrite H. reflexivity.
Qed.

Lemma replaced_other (funcDecl : FuncDecl) :
  isDialCase funcDecl = false -> isListenCase funcDecl = false ->
  replaced (DFunc funcDecl) = DFunc funcDecl.
Proof. intros Hd Hl. unfold replaced. simpl. rewrite Hd, Hl. reflexivity. Qed.

(** Every declaration that satisfies the dial-predicate is one whose body
    the rewriter replaces. *)
Lemma dialPredicate_isDialCase (funcDecl : FuncDecl) :
  dialPredicate funcDecl -> isDialCase funcDecl = true.
Proof.
  intros [Hname [names Hrecv]]. apply isDialCase_iff.
  split; [exact Hname | rewrite Hrecv; discriminate].
Qed.

(** C1, on the code. The file holds the DialContext method of Dialer and a
    DialContext method of another type, Client.  The second fails the
    dial-predicate, and the matcher of the discovery pass rejects it, yet
    the rewriter gives it the delegating body as well. *)
Theorem C1_rewriter_replaces_any_DialContext_method :
  ~ dialPredicate clientMethod
  /\ dialMatcher clientMethod = false
  /\ Decls clientFile !! 3 = Some (DFunc clientMethod)
  /\ Body clientMethod = Some [OtherStmt "return nil, nil"]
  /\ exists astFile' rewritten,
       rewriteFile "/go/src/net/dial.go" clientFile = Ok astFile'
       /\ Decls astFile' !! 3 = Some (DFunc rewritten)
       /\ Recv rewritten = Recv clientMethod
       /\ Body rewritten
          = Some [ReturnStmt
                    [CallExpr (Ident "_dialContext")
                       [Ident "ctx"; Ident "network"; Ident "address"]]].
Proof.
  split.
  { intros [_ [names H]]. vm_compute in H. discriminate. }
  split; [reflexivity |]. split; [reflexivity |]. split; [reflexivity |].
  eexists. eexists. split; [vm_compute; reflexivity |].
  split; [reflexivity |]. split; reflexivity.
Qed.

(** The rewriter replaces the body of a declaration exactly when it is a
    method named DialContext, whatever its receiver. *)
Lemma rewriteFile_dial_iff (path : string) (astFile astFile' : File)
  (i : nat) (funcDecl : FuncDecl) :
  rewriteFile path astFile = Ok astFile' ->
  Decls astFile !! i = Some (DFunc funcDecl) ->
  Body funcDecl <> Some dialContextBody ->
  Decls astFile' !! (importShift astFile + i)
    = Some (DFunc (setBody funcDecl dialContextBody))
  <-> Name funcDecl = "DialContext" /\ Recv funcDecl <> None.
Proof.
  intros Hrw Hi Hbody.
  rewrite (rewriteFile_lookup _ _ _ _ _ Hrw Hi), <- isDialCase_iff.
  destruct (isDialCase funcDecl) eqn:Hd.
  - rewrite (replaced_dial _ Hd). tauto.
  - split; [| discriminate]. intros H. exfalso.
    destruct (isListenCase funcDecl) eqn:Hl.
    + rewrite (replaced_listen _ Hl) in H. discriminate.
    + rewrite (replaced_other _ Hd Hl) in H.
      injection H as H. apply Hbody. rewrite H at 1. reflexivity.
Qed.

(** C2, as the code has it. Where the rewriter replaces the body of a
    DialContext method, the new body is a single return of a call to
    _dialContext with the fixed names ctx, network and address, in this
    order, and for the Listen function a call to _listen with network and
    address; name, receiver and signature stay.  These are the formal
    parameter names of the declaration when it names its parameters so. *)
Theorem C2_delegating_call_has_fixed_arguments
  (path : string) (astFile astFile' : File) (i : nat) (funcDecl : FuncDecl) :
  rewriteFile path astFile = Ok astFile' ->
  Decls astFile !! i = Some (DFunc funcDecl) ->
  (Name funcDecl = "DialContext" /\ Recv funcDecl <> None ->
   exists rewritten,
     Decls astFile' !! (importShift astFile + i) = Some (DFunc rewritten)
     /\ Name rewritten = Name funcDecl
     /\ Recv rewritten = Recv funcDecl
     /\ FType rewritten = FType funcDecl
     /\ returnsCall "_dialContext" ["ctx"; "network"; "address"] rewritten
     /\ (paramNames funcDecl = ["ctx"; "network"; "address"] ->
         forwardsOriginalNames "_dialContext" funcDecl rewritten))
  /\ (Name funcDecl = "Listen" /\ Recv funcDecl = None ->
      exists rewritten,
        Decls astFile' !! (importShift astFile + i) = Some (DFunc rewritten)
        /\ Name rewritten = Name funcDecl
        /\ Recv rewritten = Recv funcDecl
        /\ FType rewritten = FType funcDecl
        /\ returnsCall "_listen" ["network"; "address"] rewritten
        /\ (paramNames funcDecl = ["network"; "address"] ->
            forwardsOriginalNames "_listen" funcDecl rewritten)).
Proof.
  intros Hrw Hi.
  pose proof (rewriteFile_lookup _ _ _ _ _ Hrw Hi) as Hlook.
  split.
  - intros Hd%isDialCase_iff. rewrite (replaced_dial _ Hd) in Hlook.
    exists (setBody funcDecl dialContextBody).
    repeat split; try assumption.
    intros Hnames. unfold forwardsOriginalNames. rewrite Hnames. reflexivity.
  - intros Hl%isListenCase_iff. rewrite (replaced_listen _ Hl) in Hlook.
    exists (setBody funcDecl listenBody).
    repeat split; try assumption.
    intros Hnames. unfold forwardsOriginalNames. rewrite Hnames. reflexivity.
Qed.

(** The method of the sample file names its parameters ctx, network and
    address, which the call forwards. *)
Lemma C2_delegating_call_witness :
  exists astFile' rewritten,
    rewriteFile "/go/src/net/dial.go" dialFile = Ok astFile'
    /\ Decls astFile' !! 2 = Some (DFunc rewritten)
    /\ forwardsOriginalNames "_dialContext" dialerMethod rewritten.
Proof.
  eexists.
  assert (Hrw : rewriteFile "/go/src/net/dial.go" dialFile = Ok _)
    by (vm_compute; reflexivity).
  destruct (C2_delegating_call_has_fixed_arguments
              "/go/src/net/dial.go" dialFile _ 2 dialerMethod Hrw eq_refl)
    as [Hdial _].
  destruct Hdial as (rewritten & Hlook & _ & _ & _ & _ & Hfwd).
  { split; [reflexivity | discriminate]. }
  exists rewritten. split; [exact Hrw |]. split; [exact Hlook |].
  apply Hfwd. reflexivity.
Defined.

(** C2 as stated fails on a method that names its parameters c, netw and
    addr: the call still passes ctx, network and address. *)
Lemma C2_renamed_parameters_counterexample :
  paramNames renamedMethod = ["c"; "netw"; "addr"]
  /\ exists astFile' rewritten,
       rewriteFile "/go/src/net/dial.go" renamedFile = Ok astFile'
       /\ Decls renamedFile !! 1 = Some (DFunc renamedMethod)
       /\ Decls astFile' !! 1 = Some (DFunc rewritten)
       /\ returnsCall "_dialContext" ["ctx"; "network"; "address"] rewritten
       /\ ~ forwardsOriginalNames "_dialContext" renamedMethod rewritten.
Proof.
  split; [reflexivity |].
  eexists. eexists. split; [vm_compute; reflexivity |].
  split; [reflexivity |]. split; [reflexivity |]. split; [reflexivity |].
  intros H. vm_compute in H. discriminate.
Qed.

(** ** The import step *)








Lemma addUnsafeImport_present (astFile : File) :
  hasUnsafeImport (Imports astFile) = true ->
  addUnsafeImport astFile = astFile.
Proof. intros H. unfold addUnsafeImport. rewrite H. reflexivity. Qed.








(** ** The result of [GetReplacedNetSources] *)

Section Sources.

Variable ParseFile : string -> string -> result File.
Variable format_Node : File -> result string.

Lemma replaceAll_length (w : World) (paths : list string)
  (ret srcs : list ReplacedNetSource) :
  replaceAll ParseFile format_Node w paths ret = Ok srcs ->
  length srcs = length ret + length paths.
Proof.
  revert ret. induction paths as [| path rest IH]; intros ret; simpl.
  - intros [= <-]. lia.
  - destruct (createReplacedNetSource _ _ w path); [| discriminate].
    intros H%IH. rewrite length_app in H. simpl in H. lia.
Qed.

(** A successful result has one source for each path of the working set,
    which is not empty. *)
Lemma GetReplacedNetSources_not_empty (w : World) :
  GetReplacedNetSources ParseFile format_Node w <> Ok [].
Proof.
  unfold GetReplacedNetSources.
  destruct (netPkgGoFiles w) as [netPkgFiles | e]; [| discriminate].
  destruct (Nat.eqb _ 0) eqn:Hlen; [discriminate |].
  intros H%replaceAll_length. apply Nat.eqb_neq in Hlen. simpl in H. lia.
Qed.

Lemma findSourcePaths_none (w : World) (netPkgFiles : list string)
  (matchers : list (FuncDecl -> bool)) :
  (forall path, path ∈ netPkgFiles ->
     fileMatches ParseFile w matchers path = false) ->
  findSourcePaths ParseFile w netPkgFiles matchers = [].
Proof.
  intros Hnone.
  destruct (findSourcePaths ParseFile w netPkgFiles matchers)
    as [| p rest] eqn:Hpaths; [reflexivity |].
  assert (Hin : p ∈ findSourcePaths ParseFile w netPkgFiles matchers)
    by (rewrite Hpaths; left).
  apply findSourcePaths_elem in Hin as [Hin Hm].
  rewrite (Hnone _ Hin) in Hm. discriminate.
Qed.

(** C4, as the code has it. When discovery succeeds and no candidate has a
    declaration that satisfies the dial matcher or the listen matcher,
    [GetReplacedNetSources] returns the error whose message is
    failed to find net package source files; and in no world does it
    return a successful empty result. *)
Theorem C4_empty_working_set_is_an_error
  (w : World) (netPkgFiles : list string) :
  netPkgGoFiles w = Ok netPkgFiles ->
  (forall path, path ∈ netPkgFiles ->
     fileMatches ParseFile w [dialMatcher; listenMatcher] path = false) ->
  GetReplacedNetSources ParseFile format_Node w
  = Err (errorString "failed to find net package source files")
  /\ forall w' : World,
       GetReplacedNetSources ParseFile format_Node w' <> Ok [].
Proof.
  intros Hfiles Hnone. split; [| apply GetReplacedNetSources_not_empty].
  unfold GetReplacedNetSources. rewrite Hfiles.
  rewrite (findSourcePaths_none _ _ _ Hnone). reflexivity.
Qed.

End Sources.

(** A tree with one candidate, which has no target. *)
Lemma C4_empty_working_set_witness :
  GetReplacedNetSources sampleParse sampleFormat
    (sampleWorld {[ "/go/src/net/lookup.go" := "lookup" ]}
       [NFile "lookup.go"; NFile "lookup_test.go"])
  = Err (errorString "failed to find net package source files").
Proof.
  apply (C4_empty_working_set_is_an_error sampleParse sampleFormat
           (sampleWorld {[ "/go/src/net/lookup.go" := "lookup" ]}
              [NFile "lookup.go"; NFile "lookup_test.go"])
           ["/go/src/net/lookup.go"]).
  - vm_compute; reflexivity.
  - intros path ->%list_elem_of_singleton. vm_compute; reflexivity.
Defined.

(** C4 as stated names another message: on a tree whose only candidate
    matches neither matcher, the error is not the one with the message
    no source files found. *)
Lemma C4_error_message_counterexample :
  let w := sampleWorld {[ "/go/src/net/lookup.go" := "lookup" ]}
             [NFile "lookup.go"; NFile "lookup_test.go"] in
  netPkgGoFiles w = Ok ["/go/src/net/lookup.go"]
  /\ fileMatches sampleParse w [dialMatcher; listenMatcher]
       "/go/src/net/lookup.go" = false
  /\ GetReplacedNetSources sampleParse sampleFormat w
     <> Err (errorString "no source files found").
Proof.
  split; [vm_compute; reflexivity |]. split; [vm_compute; reflexivity |].
  vm_compute. discriminate.
Qed.

(** ** Releasing the handle *)

Lemma os_Remove_files (name : string) (w : World) :
  files (fst (os_Remove name w)) = delete name (files w).
Proof.
  unfold os_Remove. destruct (files w !! name) eqn:Hname; simpl.
  - reflexivity.
  - symmetry. apply delete_id. exact Hname.
Qed.

Lemma os_Remove_absent (name : string) (w : World) :
  files w !! name = None -> fst (os_Remove name w) = w.
Proof. intros H. unfold os_Remove. rewrite H. reflexivity. Qed.

Lemma remove_all_files (paths : list string) (w : World) :
  files (fold_left (fun w path => let '(w', _) := os_Remove path w in w')
           paths w)
  = fold_left (fun fs path => delete path fs) paths (files w).
Proof.
  revert w. induction paths as [| p rest IH]; intros w; simpl.
  - reflexivity.
  - rewrite IH. f_equal.
    pose proof (os_Remove_files p w) as H.
    destruct (os_Remove p w). exact H.
Qed.

Lemma delete_all_lookup (paths : list string) (fs : gmap string string)
  (p : string) :
  fold_left (fun fs path => delete path fs) paths fs !! p
  = if decide (p ∈ paths) then None else fs !! p.
Proof.
  revert fs. induction paths as [| q rest IH]; intros fs.
  - destruct (decide (p ∈ [])) as [Hin | _]; [| reflexivity].
    inversion Hin.
  - change (fold_left (fun fs path => delete path fs) (q :: rest) fs)
      with (fold_left (fun fs path => delete path fs) rest (delete q fs)).
    rewrite IH.
    destruct (decide (p ∈ rest)) as [Hin | Hnin];
      destruct (decide (p ∈ q :: rest)) as [Hin' | Hnin'].
    + reflexivity.
    + exfalso. apply Hnin'. right. exact Hin.
    + apply elem_of_cons in Hin' as [-> | Hin']; [| contradiction].
      apply lookup_delete_eq.
    + apply lookup_delete_ne. intros ->. apply Hnin'. left.
Qed.

Lemma Close_files (f : OverlayFile) (w : World) :
  files (Close f w)
  = fold_left (fun fs path => delete path fs)
      (overlayPath f :: tmpFilePaths f) (files w).
Proof.
  unfold Close. pose proof (os_Remove_files (overlayPath f) w) as H.
  destruct (os_Remove (overlayPath f) w) as [w1 e]. simpl in *.
  rewrite remove_all_files, H. reflexivity.
Qed.

Lemma remove_all_absent (paths : list string) (w : World) :
  (forall p, p ∈ paths -> files w !! p = None) ->
  fold_left (fun w path => let '(w', _) := os_Remove path w in w') paths w
  = w.
Proof.
  induction paths as [| p rest IH]; intros Habs; simpl; [reflexivity |].
  pose proof (os_Remove_absent p w (Habs p ltac:(left))) as H.
  destruct (os_Remove p w) as [w1 e]. simpl in H. subst w1.
  apply IH. intros q Hq. apply Habs. right. exact Hq.
Qed.

Lemma Close_absent (f : OverlayFile) (w : World) :
  (forall p, p ∈ overlayPath f :: tmpFilePaths f -> files w !! p = None) ->
  Close f w = w.
Proof.
  intros Habs. unfold Close.
  pose proof (os_Remove_absent _ w (Habs (overlayPath f) ltac:(left))) as H.
  destruct (os_Remove (overlayPath f) w) as [w1 e]. simpl in H. subst w1.
  apply remove_all_absent. intros q Hq. apply Habs. right. exact Hq.
Qed.

(** C8. [Close] returns nothing, so no error of a removal reaches the
    caller.  After it the manifest and every tracked temporary file are
    gone and every other file is as before, whether or not the tracked
    files were there; when they were all missing already the world is left
    as it is; and a second [Close] changes nothing. *)
Theorem C8_Close_removes_tolerates_and_is_idempotent
  (f : OverlayFile) (w : World) :
  (forall p, p ∈ overlayPath f :: tmpFilePaths f ->
     files (Close f w) !! p = None)
  /\ (forall p, p ∉ overlayPath f :: tmpFilePaths f ->
        files (Close f w) !! p = files w !! p)
  /\ ((forall p, p ∈ overlayPath f :: tmpFilePaths f ->
         files w !! p = None) ->
      Close f w = w)
  /\ Close f (Close f w) = Close f w.
Proof.
  assert (Hgone : forall p, p ∈ overlayPath f :: tmpFilePaths f ->
                    files (Close f w) !! p = None).
  { intros p Hp. rewrite Close_files, delete_all_lookup.
    destruct (decide (p ∈ overlayPath f :: tmpFilePaths f));
      [reflexivity | contradiction]. }
  split; [exact Hgone |]. split.
  - intros p Hp. rewrite Close_files, delete_all_lookup.
    destruct (decide (p ∈ overlayPath f :: tmpFilePaths f));
      [contradiction | reflexivity].
  - split; [apply Close_absent |]. apply Close_absent. exact Hgone.
Qed.

(** A handle with one tracked file that is there and one that is gone. *)
Lemma C8_Close_witness :
  let f := {| overlayPath := "/tmp/wasi_go_net_overlay7";
              tmpFilePaths := ["/tmp/dial.go_77"; "/tmp/gone.go_777"] |} in
  let w := sampleWorld {[ "/tmp/wasi_go_net_overlay7" := "Replace";
                          "/tmp/dial.go_77" := "package net";
                          "/tmp/other" := "kept" ]} [] in
  files (Close f w) = {[ "/tmp/other" := "kept" ]}
  /\ Close f (Close f w) = Close f w.
Proof.
  split; [vm_compute; reflexivity |].
  apply C8_Close_removes_tolerates_and_is_idempotent.
Defined.

(** ** Building the overlay *)

Lemma createTempLoop_Ok (tries : nat) (prefix suffix name : string)
  (w w' : World) :
  createTempLoop tries prefix suffix w = (Ok name, w') ->
  files w !! name = None /\ files w' = <[name := ""]> (files w).
Proof.
  revert w. induction tries as [| tries IH]; intros w; simpl.
  - discriminate.
  - destruct (files w !! _) eqn:Hfree.
    + intros H. apply IH in H. exact H.
    + destruct (openErr w _); [discriminate |].
      intros [= <- <-]. simpl. split; [exact Hfree | reflexivity].
Qed.

Lemma os_CreateTemp_Ok (pattern name : string) (w w' : World) :
  os_CreateTemp pattern w = (Ok name, w') ->
  files w !! name = None /\ files w' = <[name := ""]> (files w).
Proof.
  unfold os_CreateTemp.
  destruct (prefixAndSuffix pattern) as [[prefix suffix] | e];
    [| discriminate].
  apply createTempLoop_Ok.
Qed.

(** Creating a temporary file and writing to it once: the name was free,
    and the file now holds what was written. *)
Lemma temp_file_written (pattern name content : string) (w w1 w2 : World) :
  os_CreateTemp pattern w = (Ok name, w1) ->
  file_Write name content w1 = (None, w2) ->
  files w !! name = None /\ files w2 = <[name := content]> (files w).
Proof.
  intros [Hfree Hfiles]%os_CreateTemp_Ok. unfold file_Write.
  destruct (writeErr w1 name); [discriminate |].
  rewrite Hfiles, lookup_insert_eq. intros [= <-]. simpl.
  split; [exact Hfree |]. rewrite insert_insert_eq. reflexivity.
Qed.

(** The loop over the sources, when it succeeds: one new file for each
    source, under a name that was free, holding the content of the source;
    the files that were there are kept; the map is extended by the paths
    of the sources. *)
Lemma writeSources_Ok (srcs : list ReplacedNetSource)
  (tmps tmps' : list string) (omap omap' : gmap string string)
  (w w' : World) :
  NoDup (Path <$> srcs) ->
  writeSources srcs tmps omap w = (Ok (tmps', omap'), w') ->
  exists news,
    tmps' = tmps ++ news
    /\ length news = length srcs
    /\ files w ⊆ files w'
    /\ (forall t, t ∈ news -> files w !! t = None)
    /\ NoDup news
    /\ (forall i src, srcs !! i = Some src ->
          exists t, news !! i = Some t
                    /\ omap' !! Path src = Some t
                    /\ files w' !! t = Some (Content src))
    /\ (forall k, k ∉ Path <$> srcs -> omap' !! k = omap !! k)
    /\ dom omap' = dom omap ∪ list_to_set (Path <$> srcs).
Proof.
  revert tmps omap w.
  induction srcs as [| src rest IH]; intros tmps omap w Hnd Hrun;
    simpl in Hrun.
  - injection Hrun as <- <- <-. exists []. rewrite app_nil_r.
    repeat split; try reflexivity.
    + intros t Ht. inversion Ht.
    + constructor.
    + intros i src Hi. rewrite lookup_nil in Hi. discriminate.
    + symmetry. apply (right_id_L ∅ (∪)).
  - destruct (os_CreateTemp _ w) as [[tmp | e] w1] eqn:Hcreate;
      [| discriminate].
    destruct (file_Write tmp (Content src) w1) as [[e |] w2] eqn:Hwrite;
      [discriminate |].
    destruct (temp_file_written _ _ _ _ _ _ Hcreate Hwrite)
      as [Hfree Hfiles].
    rewrite fmap_cons in Hnd. apply NoDup_cons in Hnd as [Hfresh Hnd].
    destruct (IH _ _ _ Hnd Hrun)
      as (news & -> & Hlen & Hsub & Hnew & Hnodup & Hidx & Hkeep & Hdom).
    assert (Hsub0 : files w ⊆ files w2)
      by (rewrite Hfiles; apply insert_subseteq; exact Hfree).
    assert (Htmp : files w2 !! tmp = Some (Content src))
      by (rewrite Hfiles; apply lookup_insert_eq).
    exists (tmp :: news). rewrite <- app_assoc.
    split; [reflexivity |]. split; [simpl; congruence |].
    split; [etrans; eassumption |]. split.
    { intros t [-> | Ht]%elem_of_cons; [exact Hfree |].
      eapply lookup_weaken_None; [apply Hnew; exact Ht | exact Hsub0]. }
    split.
    { apply NoDup_cons. split; [| exact Hnodup].
      intros Hin. apply Hnew in Hin. congruence. }
    split.
    { intros [| i] src' Hi; simpl in Hi.
      - injection Hi as <-. exists tmp. split; [reflexivity |]. split.
        + rewrite (Hkeep _ Hfresh). apply lookup_insert_eq.
        + eapply lookup_weaken; eassumption.
      - apply Hidx. exact Hi. }
    split.
    { intros k Hk. rewrite fmap_cons, not_elem_of_cons in Hk.
      destruct Hk as [Hne Hk]. rewrite (Hkeep _ Hk).
      apply lookup_insert_ne. congruence. }
    rewrite Hdom, dom_insert_L, fmap_cons.
    change (list_to_set (Path src :: (Path <$> rest)))
      with ({[Path src]} ∪ list_to_set (Path <$> rest) : gset string).
    rewrite (comm_L (∪) {[Path src]} (dom omap)), (assoc_L (∪)).
    reflexivity.
Qed.

Section Overlay.

Variable json_Marshal : gmap string (gmap string string) -> result string.

(** C3. When the sources have pairwise different paths and
    [CreateOverlayFile] succeeds, the manifest file holds the encoding of
    an object whose one field, Replace, is a map with as many entries as
    there are sources; its keys are the paths of the sources, and the
    value under the path of a source is the temporary file created for it,
    a file that was not there before and now holds the content of that
    source.  The handle tracks these temporary files, one for each source
    and in their order, and the manifest apart from them. *)
Theorem C3_manifest_maps_each_path_to_its_temporary_file
  (srcs : list ReplacedNetSource) (w w' : World) (f : OverlayFile) :
  NoDup (Path <$> srcs) ->
  CreateOverlayFile json_Marshal srcs w = (Ok f, w') ->
  exists (overlayMap : gmap string string) (content : string),
    json_Marshal {[ "Replace" := overlayMap ]} = Ok content
    /\ files w' !! overlayPath f = Some content
    /\ files w !! overlayPath f = None
    /\ size overlayMap = length srcs
    /\ dom overlayMap = list_to_set (Path <$> srcs)
    /\ (forall i src, srcs !! i = Some src ->
          exists tmp, tmpFilePaths f !! i = Some tmp
                      /\ overlayMap !! Path src = Some tmp
                      /\ files w !! tmp = None
                      /\ files w' !! tmp = Some (Content src))
    /\ length (tmpFilePaths f) = length srcs
    /\ NoDup (overlayPath f :: tmpFilePaths f).
Proof.
  intros Hnd. unfold CreateOverlayFile.
  destruct (writeSources srcs [] ∅ w) as [[[tmps omap] | e] w1] eqn:Hws;
    [| discriminate].
  destruct (os_CreateTemp _ w1) as [[manifest | e] w2] eqn:Hcreate;
    [| discriminate].
  destruct (json_Marshal _) as [content | e] eqn:Hjson; [| discriminate].
  destruct (file_Write manifest content w2) as [[e |] w3] eqn:Hwrite;
    [discriminate |].
  intros [= <- <-]. simpl.
  destruct (writeSources_Ok _ _ _ _ _ _ _ Hnd Hws)
    as (news & Htmps & Hlen & Hsub & Hnew & Hnodup & Hidx & Hkeep & Hdom).
  simpl in Htmps. subst tmps.
  destruct (temp_file_written _ _ _ _ _ _ Hcreate Hwrite) as [Hfree Hfiles].
  exists omap, content.
  split; [exact Hjson |].
  split; [rewrite Hfiles; apply lookup_insert_eq |].
  split; [eapply lookup_weaken_None; eassumption |].
  assert (Hdom' : dom omap = list_to_set (Path <$> srcs))
    by (rewrite Hdom, dom_empty_L; apply (left_id_L ∅ (∪))).
  split.
  { rewrite <- size_dom, Hdom', size_list_to_set by exact Hnd.
    apply length_fmap. }
  split; [exact Hdom' |]. split.
  { intros i src Hi. destruct (Hidx i src Hi) as (t & Ht & Hmap & Hcontent).
    exists t. split; [exact Ht |]. split; [exact Hmap |].
    assert (Hin : t ∈ news) by (eapply list_elem_of_lookup_2; exact Ht).
    split; [apply Hnew; exact Hin |].
    rewrite Hfiles, lookup_insert_ne; [exact Hcontent |].
    intros ->. congruence. }
  split; [exact Hlen |].
  apply NoDup_cons. split; [| exact Hnodup].
  intros Hin. apply list_elem_of_lookup in Hin as [i Hi].
  assert (Hlt : i < length srcs) by (rewrite <- Hlen; eapply lookup_lt_Some; exact Hi).
  apply lookup_lt_is_Some in Hlt as [src Hsrc].
  destruct (Hidx i src Hsrc) as (t & Ht & _ & Hcontent).
  rewrite Hi in Ht. injection Ht as <-. congruence.
Qed.

End Overlay.

(** Two sources; the first name drawn for the first of them is taken. *)
Lemma C3_manifest_witness :
  let srcs := [ {| Path := "/go/src/net/dial.go"; Content := "package net // dial" |};
                {| Path := "/go/src/net/sock.go"; Content := "package net // listen" |} ] in
  let w := sampleWorld {[ "/tmp/dial.go_7" := "taken" ]} [] in
  exists f w',
    CreateOverlayFile sampleMarshal srcs w = (Ok f, w')
    /\ f = {| overlayPath := "/tmp/wasi_go_net_overlay7777";
              tmpFilePaths := ["/tmp/dial.go_77"; "/tmp/sock.go_777"] |}
    /\ exists overlayMap content,
         sampleMarshal {[ "Replace" := overlayMap ]} = Ok content
         /\ files w' !! overlayPath f = Some content
         /\ size overlayMap = 2
         /\ dom overlayMap
            = list_to_set ["/go/src/net/dial.go"; "/go/src/net/sock.go"].
Proof.
  intros srcs w. eexists. eexists.
  assert (Hrun : CreateOverlayFile sampleMarshal srcs w = (Ok _, _))
    by (vm_compute; reflexivity).
  split; [exact Hrun |]. split; [reflexivity |].
  assert (Hnd : NoDup (Path <$> srcs))
    by (apply (bool_decide_unpack _); vm_compute; exact I).
  destruct (C3_manifest_maps_each_path_to_its_temporary_file
              sampleMarshal srcs w _ _ Hnd Hrun)
    as (overlayMap & content & Hjson & Hfile & _ & Hsize & Hdom & _).
  exists overlayMap, content. auto.
Defined.

(** ** The walk of source discovery *)

(** Induction on a tree, with the property known of every entry of a
    directory. *)
Lemma Node_forall_ind (P : Node -> Prop) :
  (forall name, P (NFile name)) ->
  (forall name err, P (NBroken name err)) ->
  (forall name readErr entries,
     Forall P entries -> P (NDir name readErr entries)) ->
  forall n, P n.
Proof.
  intros HFile HBroken HDir.
  fix IH 1. intros [name | name readErr entries | name err].
  - apply HFile.
  - apply HDir. induction entries as [| child rest IHrest].
    + constructor.
    + constructor; [apply IH | exact IHrest].
  - apply HBroken.
Qed.

Lemma firstFailure_app (es1 es2 : list Entry) :
  firstFailure (es1 ++ es2)
  = match firstFailure es1 with
    | Some msg => Some msg
    | None => firstFailure es2
    end.
Proof.
  induction es1 as [| [p name | p | p msg] rest IH]; simpl;
    try rewrite IH; reflexivity.
Qed.

Lemma beforeFailure_app (es1 es2 : list Entry) :
  beforeFailure (es1 ++ es2)
  = match firstFailure es1 with
    | Some _ => beforeFailure es1
    | None => es1 ++ beforeFailure es2
    end.
Proof.
  induction es1 as [| [p name | p | p msg] rest IH]; simpl;
    try rewrite IH; try reflexivity;
    destruct (firstFailure rest); reflexivity.
Qed.

Lemma goFilesOf_app (es1 es2 : list Entry) :
  goFilesOf (es1 ++ es2) = goFilesOf es1 ++ goFilesOf es2.
Proof. apply flat_map_app. Qed.

Lemma beforeFailure_no_failure (es : list Entry) :
  firstFailure es = None -> beforeFailure es = es.
Proof.
  induction es as [| [p name | p | p msg] rest IH]; simpl; intros H;
    try rewrite (IH H); congruence.
Qed.

(** The function literal on a file. *)
Lemma collectGoFile_file (path name : string) (ret : list string) :
  collectGoFile path (Visit (mkFileInfo name false)) ret
  = (ret ++ goFileOf (EFile path name), None).
Proof.
  unfold collectGoFile, goFileOf, isGoSource. simpl.
  destruct (String.eqb (Ext name) ".go"); simpl;
    [| rewrite app_nil_r; reflexivity].
  destruct (HasSuffix name "_test.go"); simpl;
    [rewrite app_nil_r |]; reflexivity.
Qed.

Lemma walkNames_cons {S : Type}
  (walkChild : string -> Node -> S -> S * option error)
  (walkFn : WalkFunc S) (path : string) (child : Node) (rest : list Node)
  (s : S) :
  (forall name err, child <> NBroken name err) ->
  walkNames walkChild walkFn path (child :: rest) s
  = match walkChild (Join [path; nodeName child]) child s with
    | (s', Some e) =>
        if isDirNode child && isSkipDir e
        then walkNames walkChild walkFn path rest s'
        else (s', Some e)
    | (s', None) => walkNames walkChild walkFn path rest s'
    end.
Proof.
  intros Hchild. destruct child as [name | name readErr sub | name err].
  - reflexivity.
  - reflexivity.
  - exfalso. exact (Hchild name err eq_refl).
Qed.

Lemma walkNames_collects (path : string) (entries : list Node)
  (ret : list string) :
  Forall walkCollects entries ->
  let es := flat_map
              (fun child => entriesOf (Join [path; nodeName child]) child)
              entries in
  walkNames (fun filename child s => walk filename child collectGoFile s)
    collectGoFile path entries ret
  = (ret ++ goFilesOf (beforeFailure es), errorString <$> firstFailure es).
Proof.
  intros Hall. cbv zeta. revert ret.
  induction Hall as [| child rest Hchild _ IH]; intros ret.
  - simpl. rewrite app_nil_r. reflexivity.
  - change (flat_map ?f (child :: rest)) with (f child ++ flat_map f rest).
    cbv beta. rewrite firstFailure_app, beforeFailure_app.
    assert (Hcase : (exists name err, child = NBroken name err)
                    \/ (forall name err, child <> NBroken name err)).
    { destruct child; [right | right | left]; try discriminate; eauto. }
    destruct Hcase as [(name & err & ->) | Hok].
    + simpl. rewrite app_nil_r. reflexivity.
    + rewrite walkNames_cons by exact Hok.
      rewrite Hchild.
      destruct (firstFailure (entriesOf _ child)) as [msg |] eqn:Hff; simpl.
      * rewrite andb_false_r. reflexivity.
      * rewrite IH, goFilesOf_app, app_assoc.
        rewrite (beforeFailure_no_failure _ Hff). reflexivity.
Qed.

Lemma walk_collects (n : Node) : walkCollects n.
Proof.
  induction n as [name | name err | name readErr entries Hall]
    using Node_forall_ind; intros path ret.
  - change (walk path (NFile name) collectGoFile ret)
      with (collectGoFile path (Visit (mkFileInfo name false)) ret).
    rewrite collectGoFile_file.
    change (goFilesOf (beforeFailure (entriesOf path (NFile name))))
      with (goFileOf (EFile path name) ++ []).
    rewrite app_nil_r. reflexivity.
  - simpl. rewrite app_nil_r. reflexivity.
  - destruct readErr as [err |]; simpl.
    + rewrite app_nil_r. reflexivity.
    + apply (walkNames_collects path entries ret Hall).
Qed.

Lemma firstFailure_flat_map_None {A} (f : A -> list Entry) (l : list A) :
  firstFailure (flat_map f l) = None ->
  Forall (fun x => firstFailure (f x) = None) l.
Proof.
  induction l as [| x rest IH]; [constructor |].
  change (flat_map f (x :: rest)) with (f x ++ flat_map f rest).
  rewrite firstFailure_app.
  destruct (firstFailure (f x)) eqn:Hx; [discriminate |].
  intros Hrest. constructor; [exact Hx | apply IH; exact Hrest].
Qed.

(** Where the walk meets no failure, it meets every file under the
    node. *)
Lemma goFilesOf_complete (n : Node) :
  forall path,
    firstFailure (entriesOf path n) = None ->
    goFilesOf (entriesOf path n)
    = flat_map goFileOfPair (filesUnder path n).
Proof.
  induction n as [name | name err | name readErr entries Hall]
    using Node_forall_ind; intros path Hff.
  - simpl. reflexivity.
  - simpl in Hff. discriminate.
  - destruct readErr as [err |]; [simpl in Hff; discriminate |].
    change (firstFailure
              (flat_map
                 (fun child => entriesOf (Join [path; nodeName child]) child)
                 entries) = None) in Hff.
    apply firstFailure_flat_map_None in Hff.
    change (goFilesOf
              (flat_map
                 (fun child => entriesOf (Join [path; nodeName child]) child)
                 entries)
            = flat_map goFileOfPair
                (flat_map
                   (fun child => filesUnder (Join [path; nodeName child]) child)
                   entries)).
    induction entries as [| child rest IH]; [reflexivity |].
    apply Forall_cons in Hall as [Hchild Hall].
    apply Forall_cons in Hff as [Hc Hff].
    change (flat_map ?f (child :: rest)) with (f child ++ flat_map f rest).
    rewrite goFilesOf_app, flat_map_app, (Hchild _ Hc), (IH Hall Hff).
    reflexivity.
Qed.

(** C9, as the code has it. When the query for GOROOT succeeds, discovery
    returns without error whatever the walk meets.  The function literal
    hands every error back to the walk, which stops there: the result is
    the Go sources that are not tests among the entries met before the
    first failing one, and nothing that comes after it, inside the failing
    subtree or not.  Where the walk meets no failure the result is every
    such file under the directory. *)
Theorem C9_discovery_stops_at_first_failure (w : World) (out : string) :
  goEnvGOROOT w = (out, None) ->
  let dir := Join [TrimSpace out; "src"; "net"] in
  let es := entriesOf dir (tree w dir) in
  netPkgGoFiles w = Ok (goFilesOf (beforeFailure es))
  /\ (firstFailure es = None ->
      netPkgGoFiles w
      = Ok (flat_map goFileOfPair (filesUnder dir (tree w dir)))).
Proof.
  intros Hgo dir es.
  assert (Hrun : netPkgGoFiles w = Ok (goFilesOf (beforeFailure es))).
  { unfold netPkgGoFiles, netPkgDir, Walk. rewrite Hgo.
    fold dir. rewrite (walk_collects (tree w dir) dir []). fold es.
    destruct (firstFailure es); reflexivity. }
  split; [exact Hrun |].
  intros Hff. rewrite Hrun, (beforeFailure_no_failure _ Hff).
  unfold es. rewrite (goFilesOf_complete _ _ Hff). reflexivity.
Qed.

(** The walk collects dial.go and http/client.go and stops at the
    directory that cannot be listed. *)
Lemma C9_discovery_witness :
  netPkgGoFiles
    (sampleWorld ∅
       [NFile "dial.go"; NFile "dial_test.go";
        NDir "http" None [NFile "client.go"; NFile "README"];
        NDir "internal" (Some "permission denied") [NFile "hidden.go"];
        NFile "lookup.go"])
  = Ok ["/go/src/net/dial.go"; "/go/src/net/http/client.go"].
Proof.
  apply (C9_discovery_stops_at_first_failure
           (sampleWorld ∅
              [NFile "dial.go"; NFile "dial_test.go";
               NDir "http" None [NFile "client.go"; NFile "README"];
               NDir "internal" (Some "permission denied") [NFile "hidden.go"];
               NFile "lookup.go"])
           ("/go" +:+ newline)).
  reflexivity.
Defined.

(** C9 as stated fails when a directory that cannot be listed comes ahead
    of a source file: lookup.go lies outside the failing directory
    internal, is a Go source and no test, and is not collected. *)
Lemma C9_later_file_counterexample :
  let root := NDir "net" None
                [NDir "internal" (Some "permission denied") [NFile "hidden.go"];
                 NFile "lookup.go"] in
  let w := sampleWorld ∅
             [NDir "internal" (Some "permission denied") [NFile "hidden.go"];
              NFile "lookup.go"] in
  tree w netDir = root
  /\ ("/go/src/net/lookup.go", "lookup.go") ∈ filesUnder netDir root
  /\ isGoSource "lookup.go" = true
  /\ netPkgGoFiles w = Ok []
  /\ forall ret, netPkgGoFiles w = Ok ret -> "/go/src/net/lookup.go" ∉ ret.
Proof.
  intros root w.
  split; [reflexivity |]. split; [vm_compute; right; left |].
  split; [reflexivity |].
  assert (H : netPkgGoFiles w = Ok []) by (vm_compute; reflexivity).
  split; [exact H |].
  intros ret Hret. rewrite H in Hret. injection Hret as <-. inversion 1.
Qed.

(** * Further properties of the code *)

(** ** The forward declarations *)

Lemma isDialDecl_replaced (decl : Decl) :
  isDialDecl (replaced decl) = isDialDecl decl.
Proof.
  destruct decl as [fd | g |]; try reflexivity.
  destruct (isDialCase fd) eqn:Hd.
  - rewrite (replaced_dial _ Hd). reflexivity.
  - destruct (isListenCase fd) eqn:Hl.
    + rewrite (replaced_listen _ Hl). reflexivity.
    + rewrite (replaced_other _ Hd Hl). reflexivity.
Qed.

Lemma isListenDecl_replaced (decl : Decl) :
  isListenDecl (replaced decl) = isListenDecl decl.
Proof.
  destruct decl as [fd | g |]; try reflexivity.
  destruct (isDialCase fd) eqn:Hd.
  - rewrite (replaced_dial _ Hd). reflexivity.
  - destruct (isListenCase fd) eqn:Hl.
    + rewrite (replaced_listen _ Hl). reflexivity.
    + rewrite (replaced_other _ Hd Hl). reflexivity.
Qed.

Lemma isFuncNamed_replaced (name : string) (decl : Decl) :
  isFuncNamed name (replaced decl) = isFuncNamed name decl.
Proof.
  destruct decl as [fd | g |]; try reflexivity.
  unfold replaced. simpl.
  destruct (isDialCase fd); [reflexivity |].
  destruct (isListenCase fd); reflexivity.
Qed.

Lemma replaced_idem (decl : Decl) : replaced (replaced decl) = replaced decl.
Proof.
  destruct decl as [fd | g |]; try reflexivity.
  destruct (isDialCase fd) eqn:Hd.
  - rewrite (replaced_dial _ Hd).
    rewrite (replaced_dial (setBody fd dialContextBody)) by exact Hd.
    reflexivity.
  - destruct (isListenCase fd) eqn:Hl.
    + rewrite (replaced_listen _ Hl).
      rewrite (replaced_listen (setBody fd listenBody)) by exact Hl.
      reflexivity.
    + rewrite (replaced_other _ Hd Hl). apply replaced_other; assumption.
Qed.

Lemma existsb_map_ext {A} (p : A -> bool) (f : A -> A) (l : list A) :
  (forall x, p (f x) = p x) -> existsb p (map f l) = existsb p l.
Proof.
  intros H. induction l as [| x l IH]; simpl; [reflexivity |].
  rewrite H, IH. reflexivity.
Qed.

Lemma filter_map_ext {A} (p : A -> bool) (f : A -> A) (l : list A) :
  (forall x, p (f x) = p x) ->
  length (List.filter p (map f l)) = length (List.filter p l).
Proof.
  intros H. induction l as [| x l IH]; simpl; [reflexivity |].
  rewrite H. destruct (p x); simpl; rewrite IH; reflexivity.
Qed.

Lemma filter_alter_ext {A} (p : A -> bool) (f : A -> A) (i : nat)
  (l : list A) :
  (forall x, p (f x) = p x) ->
  length (List.filter p (alter f i l)) = length (List.filter p l).
Proof.
  intros H. revert i. induction l as [| x l IH]; intros [| i]; simpl;
    try reflexivity.
  - rewrite H. destruct (p x); reflexivity.
  - destruct (p x); simpl; [f_equal |]; apply IH.
Qed.

Lemma addUnsafeImport_countNamed (name : string) (astFile : File) :
  countNamed name (Decls (addUnsafeImport astFile))
  = countNamed name (Decls astFile).
Proof.
  unfold countNamed, addUnsafeImport.
  destruct (hasUnsafeImport (Imports astFile)); [reflexivity |].
  destruct (lastImportDecl (Decls astFile)) as [i |]; simpl.
  - apply filter_alter_ext. intros [fd | g |]; reflexivity.
  - reflexivity.
Qed.

Lemma addUnsafeImport_length (astFile : File) :
  length (Decls (addUnsafeImport astFile))
  = importShift astFile + length (Decls astFile).
Proof.
  unfold addUnsafeImport, importShift.
  destruct (hasUnsafeImport (Imports astFile)); [reflexivity |].
  destruct (lastImportDecl (Decls astFile)) as [i |]; simpl.
  - apply length_alter.
  - reflexivity.
Qed.

Lemma addUnsafeImport_found (astFile : File) :
  foundIn (Decls (addUnsafeImport astFile)) = foundIn (Decls astFile).
Proof.
  unfold foundIn. rewrite !addUnsafeImport_existsb by reflexivity.
  reflexivity.
Qed.

(** The result of the rewriter, written with the flags of the file. *)
Lemma rewriteFile_Ok (path : string) (astFile astFile' : File) :
  rewriteFile path astFile = Ok astFile' ->
  (foundDialContext (foundIn (Decls astFile))
   || foundListen (foundIn (Decls astFile)) = true)
  /\ Imports astFile' = Imports (addUnsafeImport astFile)
  /\ Decls astFile'
     = map replaced (Decls (addUnsafeImport astFile))
       ++ stubsFor (foundIn (Decls astFile)).
Proof.
  intros Hrw. rewrite rewriteFile_unfold in Hrw. cbv zeta in Hrw.
  rewrite <- (addUnsafeImport_found astFile). unfold foundIn, stubsFor.
  simpl.
  destruct (existsb isDialDecl _), (existsb isListenDecl _);
    simpl in *; try discriminate; injection Hrw as <-; auto.
Qed.

Lemma foundDial_iff (decls : list Decl) :
  foundDialContext (foundIn decls) = true
  <-> exists funcDecl,
        DFunc funcDecl ∈ decls
        /\ Name funcDecl = "DialContext" /\ Recv funcDecl <> None.
Proof.
  unfold foundIn. simpl. rewrite existsb_exists. split.
  - intros ([fd | g |] & Hin & Hd); try discriminate.
    exists fd. split; [apply list_elem_of_In; exact Hin |].
    apply isDialCase_iff. exact Hd.
  - intros (fd & Hin & Hd). exists (DFunc fd).
    split; [apply list_elem_of_In; exact Hin |].
    apply isDialCase_iff. exact Hd.
Qed.

Lemma foundListen_iff (decls : list Decl) :
  foundListen (foundIn decls) = true
  <-> exists funcDecl,
        DFunc funcDecl ∈ decls
        /\ Name funcDecl = "Listen" /\ Recv funcDecl = None.
Proof.
  unfold foundIn. simpl. rewrite existsb_exists. split.
  - intros ([fd | g |] & Hin & Hl); try discriminate.
    exists fd. split; [apply list_elem_of_In; exact Hin |].
    apply isListenCase_iff. exact Hl.
  - intros (fd & Hin & Hl). exists (DFunc fd).
    split; [apply list_elem_of_In; exact Hin |].
    apply isListenCase_iff. exact Hl.
Qed.

Lemma countNamed_app (name : string) (l1 l2 : list Decl) :
  countNamed name (l1 ++ l2) = countNamed name l1 + countNamed name l2.
Proof. unfold countNamed. rewrite List.filter_app, length_app. reflexivity. Qed.

(** X1. A rewritten file ends with the forward declarations, and with
    nothing else new: _dialContext when some method is named DialContext,
    then _listen when some function without receiver is named Listen, one
    of each however many such declarations the file has.  Ahead of them
    stand the declarations of the input, one place down when an import
    declaration was put in front. *)
Theorem X1_one_forward_declaration_per_kind
  (path : string) (astFile astFile' : File) :
  rewriteFile path astFile = Ok astFile' ->
  let found := foundIn (Decls astFile) in
  (foundDialContext found = true
   <-> exists funcDecl,
         DFunc funcDecl ∈ Decls astFile
         /\ Name funcDecl = "DialContext" /\ Recv funcDecl <> None)
  /\ (foundListen found = true
      <-> exists funcDecl,
            DFunc funcDecl ∈ Decls astFile
            /\ Name funcDecl = "Listen" /\ Recv funcDecl = None)
  /\ (exists body,
        Decls astFile'
        = body
          ++ (if foundDialContext found
              then [DFunc dialContextFuncDecl] else [])
          ++ (if foundListen found then [DFunc listenFuncDecl] else [])
        /\ length body = importShift astFile + length (Decls astFile))
  /\ countNamed "_dialContext" (Decls astFile')
     = countNamed "_dialContext" (Decls astFile)
       + (if foundDialContext found then 1 else 0)
  /\ countNamed "_listen" (Decls astFile')
     = countNamed "_listen" (Decls astFile)
       + (if foundListen found then 1 else 0).
Proof.
  intros Hrw found.
  destruct (rewriteFile_Ok _ _ _ Hrw) as (_ & _ & Hdecls).
  fold found in Hdecls.
  split; [apply foundDial_iff |]. split; [apply foundListen_iff |].
  split.
  { exists (map replaced (Decls (addUnsafeImport astFile))).
    split; [exact Hdecls |].
    rewrite length_map. apply addUnsafeImport_length. }
  rewrite Hdecls, !countNamed_app.
  unfold countNamed at 1 4.
  rewrite !filter_map_ext by apply isFuncNamed_replaced.
  fold (countNamed "_dialContext" (Decls (addUnsafeImport astFile))).
  fold (countNamed "_listen" (Decls (addUnsafeImport astFile))).
  rewrite !addUnsafeImport_countNamed. unfold stubsFor.
  destruct (foundDialContext found), (foundListen found);
    split; reflexivity.
Qed.

(** Two DialContext methods and one Listen function: three bodies are
    replaced, two declarations are appended. *)
Lemma X1_forward_declarations_witness :
  let astFile :=
    sourceFile [plainImport "context"]
      [DFunc dialerMethod; DFunc listenFunc; DFunc clientMethod] in
  exists astFile',
    rewriteFile "/go/src/net/dial.go" astFile = Ok astFile'
    /\ countNamed "_dialContext" (Decls astFile') = 1
    /\ countNamed "_listen" (Decls astFile') = 1
    /\ length (Decls astFile') = 6.
Proof.
  intros astFile. eexists.
  assert (Hrw : rewriteFile "/go/src/net/dial.go" astFile = Ok _)
    by (vm_compute; reflexivity).
  destruct (X1_one_forward_declaration_per_kind _ _ _ Hrw)
    as (_ & _ & _ & Hd & Hl).
  split; [exact Hrw |]. split; [exact Hd |]. split; [exact Hl |].
  reflexivity.
Defined.

(** ** What the rewriter leaves alone *)

Lemma replaced_noTarget (decl : Decl) :
  noTargetDecl decl = true -> replaced decl = decl.
Proof.
  destruct decl as [fd | g |]; try reflexivity.
  unfold noTargetDecl. simpl.
  destruct (isDialCase fd) eqn:Hd; [discriminate |].
  destruct (isListenCase fd) eqn:Hl; [discriminate |].
  intros _. apply replaced_other; assumption.
Qed.

Lemma addUnsafeImport_lookup_other (astFile : File) (i : nat) (decl : Decl) :
  Decls astFile !! i = Some decl ->
  hasUnsafeImport (Imports astFile) = true
  \/ lastImportDecl (Decls astFile) <> Some i ->
  Decls (addUnsafeImport astFile) !! (importShift astFile + i) = Some decl.
Proof.
  intros Hi Hnot. unfold addUnsafeImport, importShift.
  destruct (hasUnsafeImport (Imports astFile)); [exact Hi |].
  destruct Hnot as [Hnot | Hnot]; [discriminate |].
  destruct (lastImportDecl (Decls astFile)) as [j |]; simpl; [| exact Hi].
  rewrite list_lookup_alter_ne by congruence. exact Hi.
Qed.

(** X2. The rewriter leaves every other declaration as it is: a
    declaration that is neither a method named DialContext nor a function
    named Listen without receiver, and that is not the import declaration
    which receives the new import, stands unchanged in the output, at its
    place or one place down. *)
Theorem X2_other_declarations_untouched
  (path : string) (astFile astFile' : File) (i : nat) (decl : Decl) :
  rewriteFile path astFile = Ok astFile' ->
  Decls astFile !! i = Some decl ->
  noTargetDecl decl = true ->
  hasUnsafeImport (Imports astFile) = true
  \/ lastImportDecl (Decls astFile) <> Some i ->
  Decls astFile' !! (importShift astFile + i) = Some decl.
Proof.
  intros Hrw Hi Hno Hnot.
  destruct (rewriteFile_Ok _ _ _ Hrw) as (_ & _ & ->).
  apply lookup_app_l_Some. rewrite list_lookup_fmap.
  rewrite (addUnsafeImport_lookup_other _ _ _ Hi Hnot). simpl.
  rewrite (replaced_noTarget _ Hno). reflexivity.
Qed.

(** The type declaration of the sample file keeps its place. *)
Lemma X2_other_declarations_witness :
  exists astFile',
    rewriteFile "/go/src/net/dial.go" clientFile = Ok astFile'
    /\ Decls astFile' !! 2 = Some (typeDecl "Client struct{}").
Proof.
  eexists.
  assert (Hrw : rewriteFile "/go/src/net/dial.go" clientFile = Ok _)
    by (vm_compute; reflexivity).
  split; [exact Hrw |].
  apply (X2_other_declarations_untouched
           "/go/src/net/dial.go" clientFile _ 2 _ Hrw eq_refl eq_refl).
  right. vm_compute. discriminate.
Defined.

(** ** Rewriting a rewritten file *)

Lemma hasUnsafeImport_after (astFile : File) :
  hasUnsafeImport (Imports (addUnsafeImport astFile)) = true.
Proof.
  unfold addUnsafeImport.
  destruct (hasUnsafeImport (Imports astFile)) eqn:Hhas; [exact Hhas |].
  assert (Hlast : hasUnsafeImport (Imports astFile ++ [unsafeImport]) = true).
  { unfold hasUnsafeImport. rewrite existsb_app. apply orb_true_r. }
  destruct (lastImportDecl (Decls astFile)); exact Hlast.
Qed.

Lemma found_stubs (found : Found) :
  foundIn (stubsFor found) = noFound
  /\ map replaced (stubsFor found) = stubsFor found.
Proof. destruct found as [[|] [|]]; split; reflexivity. Qed.

Lemma foundIn_app (l1 l2 : list Decl) :
  foundIn (l1 ++ l2)
  = {| foundDialContext :=
         foundDialContext (foundIn l1) || foundDialContext (foundIn l2);
       foundListen := foundListen (foundIn l1) || foundListen (foundIn l2) |}.
Proof. unfold foundIn. simpl. rewrite !existsb_app. reflexivity. Qed.

Lemma foundIn_replaced (decls : list Decl) :
  foundIn (map replaced decls) = foundIn decls.
Proof.
  unfold foundIn.
  rewrite (existsb_map_ext _ _ _ isDialDecl_replaced).
  rewrite (existsb_map_ext _ _ _ isListenDecl_replaced). reflexivity.
Qed.

(** X3. The rewriter does not recognise its own output.  Run on a file it
    has rewritten, it succeeds again, adds no import and changes no body,
    but appends the same forward declarations a second time, so that
    _dialContext or _listen is then declared twice. *)
Theorem X3_second_rewrite_appends_the_stubs_again
  (path path' : string) (astFile astFile' : File) :
  rewriteFile path astFile = Ok astFile' ->
  rewriteFile path' astFile'
  = Ok {| Imports := Imports astFile';
          Decls := Decls astFile' ++ stubsFor (foundIn (Decls astFile)) |}
  /\ stubsFor (foundIn (Decls astFile)) <> [].
Proof.
  intros Hrw.
  destruct (rewriteFile_Ok _ _ _ Hrw) as (Hsome & Himp & Hdecls).
  set (found := foundIn (Decls astFile)) in *.
  assert (Hhas : hasUnsafeImport (Imports astFile') = true)
    by (rewrite Himp; apply hasUnsafeImport_after).
  assert (Hfound : foundIn (Decls astFile') = found).
  { rewrite Hdecls, foundIn_app, foundIn_replaced, addUnsafeImport_found.
    rewrite (proj1 (found_stubs found)). simpl.
    rewrite !orb_false_r. reflexivity. }
  split.
  - rewrite rewriteFile_unfold. cbv zeta.
    rewrite (addUnsafeImport_present _ Hhas).
    change (existsb isDialDecl (Decls astFile'))
      with (foundDialContext (foundIn (Decls astFile'))).
    change (existsb isListenDecl (Decls astFile'))
      with (foundListen (foundIn (Decls astFile'))).
    rewrite Hfound.
    assert (Hmap : map replaced (Decls astFile') = Decls astFile').
    { rewrite Hdecls, map_app, map_map.
      rewrite (proj2 (found_stubs found)). f_equal.
      apply map_ext. apply replaced_idem. }
    rewrite Hmap. unfold stubsFor.
    destruct (foundDialContext found), (foundListen found);
      try discriminate; reflexivity.
  - unfold stubsFor.
    destruct (foundDialContext found), (foundListen found);
      discriminate.
Qed.

(** The sample file, rewritten twice, declares _dialContext twice. *)
Lemma X3_second_rewrite_witness :
  exists astFile' astFile'',
    rewriteFile "/go/src/net/dial.go" dialFile = Ok astFile'
    /\ rewriteFile "/go/src/net/dial.go" astFile' = Ok astFile''
    /\ countNamed "_dialContext" (Decls astFile') = 1
    /\ countNamed "_dialContext" (Decls astFile'') = 2.
Proof.
  eexists. eexists.
  assert (Hrw : rewriteFile "/go/src/net/dial.go" dialFile = Ok _)
    by (vm_compute; reflexivity).
  destruct (X3_second_rewrite_appends_the_stubs_again
              "/go/src/net/dial.go" "/go/src/net/dial.go" _ _ Hrw)
    as [Hagain _].
  split; [exact Hrw |]. split; [exact Hagain |].
  split; reflexivity.
Defined.

(** ** From the matching pass to the rewriter *)

Lemma dialMatcher_isDialCase (funcDecl : FuncDecl) :
  dialMatcher funcDecl = true -> isDialCase funcDecl = true.
Proof.
  intros (Hname & name & names & rest & Hrecv)%dialMatcher_true.
  apply isDialCase_iff. split; [exact Hname | rewrite Hrecv; discriminate].
Qed.

(** A file with a declaration that one of the two matchers accepts is
    rewritten without error. *)
Lemma matched_rewriteFile (path : string) (astFile : File) :
  existsb (anyMatcher [dialMatcher; listenMatcher]) (Decls astFile) = true ->
  exists astFile', rewriteFile path astFile = Ok astFile'.
Proof.
  intros (decl & Hin & Hm)%existsb_exists.
  destruct decl as [fd | g |]; try discriminate.
  simpl in Hm. rewrite orb_false_r in Hm.
  assert (Hfound : existsb isDialDecl (Decls astFile)
                   || existsb isListenDecl (Decls astFile) = true).
  { apply orb_true_iff in Hm as [Hd | Hl].
    - apply orb_true_iff. left. apply existsb_exists.
      exists (DFunc fd). split; [exact Hin |].
      apply dialMatcher_isDialCase. exact Hd.
    - apply orb_true_iff. right. apply existsb_exists.
      exists (DFunc fd). split; [exact Hin | exact Hl]. }
  rewrite rewriteFile_unfold. cbv zeta.
  rewrite !addUnsafeImport_existsb by reflexivity.
  destruct (existsb isDialDecl (Decls astFile)),
    (existsb isListenDecl (Decls astFile));
    try discriminate; simpl; eauto.
Qed.

(** X4. The rewriter accepts what the matching pass selects.  For a path of
    the working set whose source the parser reads the same under the base
    name as under the full path, [createReplacedNetSource] does not fail on
    reading, on parsing or for want of a target function: it returns what
    the printer makes of the rewritten tree, or the error of the
    printer. *)
Theorem X4_working_set_file_is_rewritten
  (ParseFile : string -> string -> result File)
  (format_Node : File -> result string)
  (w : World) (netPkgFiles : list string) (path src : string) :
  path ∈ findSourcePaths ParseFile w netPkgFiles [dialMatcher; listenMatcher] ->
  os_ReadFile w path = Ok src ->
  ParseFile (Base path) src = ParseFile path src ->
  exists astFile astFile',
    ParseFile path src = Ok astFile
    /\ rewriteFile path astFile = Ok astFile'
    /\ createReplacedNetSource ParseFile format_Node w path
       = match format_Node astFile' with
         | Ok buf => Ok buf
         | Err err => Err (wrap "failed to format without comment AST" err)
         end.
Proof.
  intros Hin Hread Hbase.
  apply findSourcePaths_elem in Hin as [_ Hm].
  unfold fileMatches in Hm. rewrite Hread in Hm.
  destruct (ParseFile path src) as [astFile | e] eqn:Hparse;
    [| discriminate].
  destruct (matched_rewriteFile path astFile Hm) as [astFile' Hrw].
  exists astFile, astFile'. split; [reflexivity |]. split; [exact Hrw |].
  unfold createReplacedNetSource. rewrite Hread, Hbase, Hrw. reflexivity.
Qed.

(** The sample file of the dialer, found and rewritten. *)
Lemma X4_working_set_file_witness :
  exists content,
    createReplacedNetSource sampleParse sampleFormat
      (sampleWorld {[ "/go/src/net/dial.go" := "dial" ]} [])
      "/go/src/net/dial.go"
    = Ok content.
Proof.
  destruct (X4_working_set_file_is_rewritten sampleParse sampleFormat
              (sampleWorld {[ "/go/src/net/dial.go" := "dial" ]} [])
              ["/go/src/net/dial.go"] "/go/src/net/dial.go" "dial")
    as (astFile & astFile' & _ & _ & Hrun).
  - apply (bool_decide_unpack _). vm_compute. exact I.
  - vm_compute; reflexivity.
  - reflexivity.
  - rewrite Hrun. unfold sampleFormat. eauto.
Defined.

(** ** The working set as a function of the candidates *)

Section WorkingSet.

Variable ParseFile : string -> string -> result File.

(** Two lists of candidates with the same matching files have the same
    working set. *)
Lemma findSourcePaths_ext (w : World) (l1 l2 : list string)
  (matchers : list (FuncDecl -> bool)) :
  (forall path,
     path ∈ l1 /\ fileMatches ParseFile w matchers path = true
     <-> path ∈ l2 /\ fileMatches ParseFile w matchers path = true) ->
  findSourcePaths ParseFile w l1 matchers
  = findSourcePaths ParseFile w l2 matchers.
Proof.
  intros Hsame.
  apply (StronglySorted_unique String.le);
    try apply findSourcePaths_sorted.
  apply NoDup_Permutation; try apply findSourcePaths_NoDup.
  intros path. rewrite !findSourcePaths_elem. apply Hsame.
Qed.

(** X5. The working set depends on which candidates there are, not on
    their order nor on how often each is listed. *)
Theorem X5_working_set_ignores_order_and_repetition
  (w : World) (l1 l2 : list string) (matchers : list (FuncDecl -> bool)) :
  (forall path, path ∈ l1 <-> path ∈ l2) ->
  findSourcePaths ParseFile w l1 matchers
  = findSourcePaths ParseFile w l2 matchers.
Proof.
  intros Hsame. apply findSourcePaths_ext.
  intros path. rewrite (Hsame path). reflexivity.
Qed.

(** X6. A candidate that cannot be read, or whose source the parser
    rejects, is passed over without a trace: the working set is the one
    obtained without it. *)
Theorem X6_unreadable_or_unparsable_candidate_is_skipped
  (w : World) (l1 l2 : list string) (bad : string)
  (matchers : list (FuncDecl -> bool)) :
  (exists e, os_ReadFile w bad = Err e)
  \/ (exists src e, os_ReadFile w bad = Ok src
                    /\ ParseFile bad src = Err e) ->
  findSourcePaths ParseFile w (l1 ++ bad :: l2) matchers
  = findSourcePaths ParseFile w (l1 ++ l2) matchers.
Proof.
  intros Hbad.
  assert (Hno : fileMatches ParseFile w matchers bad = false).
  { unfold fileMatches.
    destruct Hbad as [[e ->] | (src & e & -> & ->)]; reflexivity. }
  apply findSourcePaths_ext. intros path.
  rewrite !elem_of_app, elem_of_cons. split.
  - intros [[H | [-> | H]] Hm]; auto. congruence.
  - intros [[H | H] Hm]; auto.
Qed.

End WorkingSet.

(** The same three candidates in two orders, one of them listed twice. *)
Lemma X5_working_set_order_witness :
  let w := sampleWorld {[ "/go/src/net/dial.go" := "dial";
                          "/go/src/net/a.go" := "listen" ]} [] in
  findSourcePaths sampleParse w
    ["/go/src/net/dial.go"; "/go/src/net/a.go"] [dialMatcher; listenMatcher]
  = findSourcePaths sampleParse w
      ["/go/src/net/a.go"; "/go/src/net/dial.go"; "/go/src/net/a.go"]
      [dialMatcher; listenMatcher].
Proof.
  intros w. apply X5_working_set_ignores_order_and_repetition.
  intros path. rewrite !elem_of_cons, !elem_of_nil. tauto.
Defined.

(** A missing file and a file that is no Go source among the candidates. *)
Lemma X6_skipped_candidate_witness :
  let w := sampleWorld {[ "/go/src/net/dial.go" := "dial";
                          "/go/src/net/bad.go" := "func (" ]} [] in
  findSourcePaths sampleParse w
    ["/go/src/net/dial.go"; "/go/src/net/bad.go"] [dialMatcher; listenMatcher]
  = findSourcePaths sampleParse w
      ["/go/src/net/dial.go"] [dialMatcher; listenMatcher].
Proof.
  intros w.
  apply (X6_unreadable_or_unparsable_candidate_is_skipped sampleParse w
           ["/go/src/net/dial.go"] [] "/go/src/net/bad.go").
  right. eexists. eexists. split; vm_compute; reflexivity.
Defined.

(** ** The sources that [GetReplacedNetSources] returns *)

Section ReplacedSources.

Variable ParseFile : string -> string -> result File.
Variable format_Node : File -> result string.
Variable json_Marshal : gmap string (gmap string string) -> result string.

Lemma replaceAll_Ok (w : World) (paths : list string)
  (ret srcs : list ReplacedNetSource) :
  replaceAll ParseFile format_Node w paths ret = Ok srcs ->
  exists news,
    srcs = ret ++ news
    /\ Path <$> news = paths
    /\ Forall (fun src =>
                 createReplacedNetSource ParseFile format_Node w (Path src)
                 = Ok (Content src)) news.
Proof.
  revert ret. induction paths as [| path rest IH]; intros ret; simpl.
  - intros [= <-]. exists []. rewrite app_nil_r. repeat split. constructor.
  - destruct (createReplacedNetSource _ _ w path) as [content | e] eqn:Hc;
      [| discriminate].
    intros (news & -> & Hpaths & Hall)%IH.
    exists ({| Path := path; Content := content |} :: news).
    rewrite <- app_assoc. split; [reflexivity |].
    split; [rewrite fmap_cons, Hpaths; reflexivity |].
    constructor; [exact Hc | exact Hall].
Qed.

Lemma replaceAll_Err (w : World) (pre post : list string) (path : string)
  (ret : list ReplacedNetSource) (e : error) :
  Forall (fun p => exists content,
            createReplacedNetSource ParseFile format_Node w p = Ok content)
    pre ->
  createReplacedNetSource ParseFile format_Node w path = Err e ->
  replaceAll ParseFile format_Node w (pre ++ path :: post) ret = Err e.
Proof.
  intros Hpre Herr. revert ret.
  induction Hpre as [| p pre [content Hp] _ IH]; intros ret; simpl.
  - rewrite Herr. reflexivity.
  - rewrite Hp. apply IH.
Qed.

(** X7. What a successful [GetReplacedNetSources] returns: one source for
    each path of the working set and in its order, so with paths that are
    pairwise different and increasing, at least one of them, each with the
    content that [createReplacedNetSource] gives for its path. *)
Theorem X7_sources_follow_the_working_set
  (w : World) (srcs : list ReplacedNetSource) :
  GetReplacedNetSources ParseFile format_Node w = Ok srcs ->
  exists netPkgFiles,
    netPkgGoFiles w = Ok netPkgFiles
    /\ Path <$> srcs
       = findSourcePaths ParseFile w netPkgFiles [dialMatcher; listenMatcher]
    /\ Forall (fun src =>
                 createReplacedNetSource ParseFile format_Node w (Path src)
                 = Ok (Content src)) srcs
    /\ NoDup (Path <$> srcs)
    /\ StronglySorted String.le (Path <$> srcs)
    /\ srcs <> [].
Proof.
  unfold GetReplacedNetSources.
  destruct (netPkgGoFiles w) as [netPkgFiles | e]; [| discriminate].
  destruct (Nat.eqb _ 0) eqn:Hlen; [discriminate |].
  intros (news & -> & Hpaths & Hall)%replaceAll_Ok. simpl.
  exists netPkgFiles. split; [reflexivity |]. split; [exact Hpaths |].
  split; [exact Hall |]. rewrite Hpaths.
  split; [apply findSourcePaths_NoDup |].
  split; [apply findSourcePaths_sorted |].
  intros ->. simpl in Hpaths. rewrite <- Hpaths in Hlen. discriminate.
Qed.

(** X8. No partial result: when the files of the working set ahead of some
    file are rewritten and that file is not, [GetReplacedNetSources]
    returns the error of that file and no source at all. *)
Theorem X8_first_failing_file_fails_the_call
  (w : World) (netPkgFiles pre post : list string) (path : string)
  (e : error) :
  netPkgGoFiles w = Ok netPkgFiles ->
  findSourcePaths ParseFile w netPkgFiles [dialMatcher; listenMatcher]
  = pre ++ path :: post ->
  Forall (fun p => exists content,
            createReplacedNetSource ParseFile format_Node w p = Ok content)
    pre ->
  createReplacedNetSource ParseFile format_Node w path = Err e ->
  GetReplacedNetSources ParseFile format_Node w = Err e.
Proof.
  intros Hfiles Hpaths Hpre Herr.
  unfold GetReplacedNetSources. rewrite Hfiles, Hpaths.
  rewrite length_app. simpl.
  replace (Nat.eqb (length pre + S (length post)) 0) with false
    by (symmetry; apply Nat.eqb_neq; lia).
  apply replaceAll_Err; assumption.
Qed.

(** X9. When the query for GOROOT fails, every entry point fails with the
    error of the query under the prefix failed to get GOROOT, and the
    combined entry point has created no file. *)
Theorem X9_failed_GOROOT_query_fails_everything
  (w : World) (out : string) (err : error) :
  goEnvGOROOT w = (out, Some err) ->
  let e := errorString ("failed to get GOROOT: " +:+ Error err) in
  netPkgDir w = (out, Some e)
  /\ netPkgGoFiles w = Err e
  /\ GetReplacedNetSources ParseFile format_Node w = Err e
  /\ CreateReplacedNetPkgOverlayFile ParseFile format_Node json_Marshal w
     = (Err e, w).
Proof.
  intros Hgo e.
  assert (Hdir : netPkgDir w = (out, Some e))
    by (unfold netPkgDir; rewrite Hgo; reflexivity).
  assert (Hfiles : netPkgGoFiles w = Err e)
    by (unfold netPkgGoFiles; rewrite Hdir; reflexivity).
  assert (Hsrcs : GetReplacedNetSources ParseFile format_Node w = Err e)
    by (unfold GetReplacedNetSources; rewrite Hfiles; reflexivity).
  repeat split; try assumption.
  unfold CreateReplacedNetPkgOverlayFile. rewrite Hsrcs. reflexivity.
Qed.

End ReplacedSources.

(** Two files of the working set, found in a tree and rewritten. *)
Lemma X7_sources_witness :
  exists srcs,
    GetReplacedNetSources sampleParse sampleFormat
      (sampleWorld {[ "/go/src/net/dial.go" := "dial";
                      "/go/src/net/a.go" := "listen" ]}
         [NFile "a.go"; NFile "dial.go"])
    = Ok srcs
    /\ Path <$> srcs = ["/go/src/net/a.go"; "/go/src/net/dial.go"]
    /\ NoDup (Path <$> srcs).
Proof.
  eexists.
  assert (Hrun : GetReplacedNetSources sampleParse sampleFormat
                   (sampleWorld {[ "/go/src/net/dial.go" := "dial";
                                   "/go/src/net/a.go" := "listen" ]}
                      [NFile "a.go"; NFile "dial.go"]) = Ok _)
    by (vm_compute; reflexivity).
  destruct (X7_sources_follow_the_working_set _ _ _ _ Hrun)
    as (netPkgFiles & _ & _ & _ & Hnd & _).
  split; [exact Hrun |]. split; [reflexivity | exact Hnd].
Defined.

(** A parser that rejects the source under the base name dial.go, the name
    under which the rewriter hands it over, and accepts it under the full
    path, under which the matching pass had handed it over. *)
Lemma X8_first_failing_file_witness :
  GetReplacedNetSources
    (fun filename src =>
       if String.eqb filename "dial.go"
       then Err (errorString "dial.go:1:1: expected 'package'")
       else sampleParse filename src)
    sampleFormat
    (sampleWorld {[ "/go/src/net/dial.go" := "dial";
                    "/go/src/net/a.go" := "listen" ]}
       [NFile "a.go"; NFile "dial.go"])
  = Err (errorString
           "failed to parse file /go/src/net/dial.go: dial.go:1:1: expected 'package'").
Proof.
  apply (X8_first_failing_file_fails_the_call _ sampleFormat _
           ["/go/src/net/a.go"; "/go/src/net/dial.go"]
           ["/go/src/net/a.go"] [] "/go/src/net/dial.go").
  - vm_compute; reflexivity.
  - vm_compute; reflexivity.
  - constructor; [| constructor]. eexists. vm_compute. reflexivity.
  - vm_compute; reflexivity.
Defined.

(** The go command is not on the path. *)
Lemma X9_failed_GOROOT_witness :
  CreateReplacedNetPkgOverlayFile sampleParse sampleFormat sampleMarshal
    noGoWorld
  = (Err (errorString
            "failed to get GOROOT: exec: go: executable file not found in $PATH"),
     noGoWorld).
Proof.
  apply (X9_failed_GOROOT_query_fails_everything sampleParse sampleFormat
           sampleMarshal noGoWorld ""
           (errorString "exec: go: executable file not found in $PATH")).
  reflexivity.
Defined.

(** ** The files that the overlay builder touches *)

Lemma createTempLoop_Err (tries : nat) (prefix suffix : string)
  (w w' : World) (e : error) :
  createTempLoop tries prefix suffix w = (Err e, w') -> files w' = files w.
Proof.
  revert w. induction tries as [| tries IH]; intros w; simpl.
  - intros [= _ <-]. reflexivity.
  - destruct (files w !! _).
    + intros H%IH. exact H.
    + destruct (openErr w _); [| discriminate].
      intros [= _ <-]. reflexivity.
Qed.

Lemma os_CreateTemp_Err (pattern : string) (w w' : World) (e : error) :
  os_CreateTemp pattern w = (Err e, w') -> files w' = files w.
Proof.
  unfold os_CreateTemp.
  destruct (prefixAndSuffix pattern) as [[prefix suffix] | e'].
  - apply createTempLoop_Err.
  - intros [= _ <-]. reflexivity.
Qed.

Lemma file_Write_Err (name content : string) (w w' : World) (e : error) :
  file_Write name content w = (Some e, w') -> w' = w.
Proof.
  unfold file_Write. destruct (writeErr w name).
  - intros [= _ <-]. reflexivity.
  - destruct (files w !! name); discriminate.
Qed.

(** Creating a temporary file and writing to it, whatever comes of it,
    keeps the files that were there. *)
Lemma temp_file_frame (pattern content : string) (w w1 w2 : World)
  (tmp : string) (r : option error) :
  os_CreateTemp pattern w = (Ok tmp, w1) ->
  file_Write tmp content w1 = (r, w2) ->
  files w ⊆ files w2.
Proof.
  intros Hcreate Hwrite. destruct r as [e |].
  - apply file_Write_Err in Hwrite as ->.
    apply os_CreateTemp_Ok in Hcreate as [Hfree ->].
    apply insert_subseteq. exact Hfree.
  - destruct (temp_file_written _ _ _ _ _ _ Hcreate Hwrite) as [Hfree ->].
    apply insert_subseteq. exact Hfree.
Qed.

Lemma writeSources_frame (srcs : list ReplacedNetSource)
  (tmps : list string) (omap : gmap string string) (w w' : World)
  (r : result (list string * gmap string string)) :
  writeSources srcs tmps omap w = (r, w') -> files w ⊆ files w'.
Proof.
  revert tmps omap w. induction srcs as [| src rest IH];
    intros tmps omap w Hrun; simpl in Hrun.
  - injection Hrun as _ <-. reflexivity.
  - destruct (os_CreateTemp _ w) as [[tmp | e] w1] eqn:Hcreate.
    + destruct (file_Write tmp (Content src) w1) as [r' w2] eqn:Hwrite.
      pose proof (temp_file_frame _ _ _ _ _ _ _ Hcreate Hwrite) as Hsub.
      destruct r' as [e |].
      * injection Hrun as _ <-. exact Hsub.
      * etrans; [exact Hsub | eapply IH; exact Hrun].
    + injection Hrun as _ <-.
      apply os_CreateTemp_Err in Hcreate as ->. reflexivity.
Qed.

(** The loop over the sources when it succeeds, without any condition on
    the paths: the new files, what they hold, and what the map holds. *)
Lemma writeSources_files (srcs : list ReplacedNetSource)
  (tmps tmps' : list string) (omap omap' : gmap string string)
  (w w' : World) :
  writeSources srcs tmps omap w = (Ok (tmps', omap'), w') ->
  exists news,
    tmps' = tmps ++ news
    /\ length news = length srcs
    /\ NoDup news
    /\ (forall t, t ∈ news -> files w !! t = None)
    /\ (forall p, p ∉ news -> files w' !! p = files w !! p)
    /\ (forall i src, srcs !! i = Some src ->
          exists t, news !! i = Some t
                    /\ files w' !! t = Some (Content src))
    /\ (forall k, k ∉ Path <$> srcs -> omap' !! k = omap !! k)
    /\ (forall i src t,
          srcs !! i = Some src -> news !! i = Some t ->
          (forall j src', i < j -> srcs !! j = Some src' ->
             Path src' <> Path src) ->
          omap' !! Path src = Some t)
    /\ dom omap' = dom omap ∪ list_to_set (Path <$> srcs).
Proof.
  revert tmps omap w.
  induction srcs as [| src rest IH]; intros tmps omap w Hrun;
    simpl in Hrun.
  - injection Hrun as <- <- <-. exists []. rewrite app_nil_r.
    split; [reflexivity |]. split; [reflexivity |].
    split; [constructor |]. split; [intros t Ht; inversion Ht |].
    split; [reflexivity |].
    split; [intros i src Hi; rewrite lookup_nil in Hi; discriminate |].
    split; [reflexivity |].
    split; [intros i src t Hi; rewrite lookup_nil in Hi; discriminate |].
    symmetry. apply (right_id_L ∅ (∪)).
  - destruct (os_CreateTemp _ w) as [[tmp | e] w1] eqn:Hcreate;
      [| discriminate].
    destruct (file_Write tmp (Content src) w1) as [[e |] w2] eqn:Hwrite;
      [discriminate |].
    destruct (temp_file_written _ _ _ _ _ _ Hcreate Hwrite)
      as [Hfree Hfiles].
    destruct (IH _ _ _ Hrun)
      as (news & -> & Hlen & Hnodup & Hnew & Hother & Hidx & Hkeep
          & Hlast & Hdom).
    assert (Htmp : files w2 !! tmp = Some (Content src))
      by (rewrite Hfiles; apply lookup_insert_eq).
    assert (Hnotin : tmp ∉ news)
      by (intros Hin; apply Hnew in Hin; congruence).
    exists (tmp :: news). rewrite <- app_assoc.
    split; [reflexivity |]. split; [simpl; congruence |].
    split; [apply NoDup_cons; auto |]. split.
    { intros t [-> | Ht]%elem_of_cons; [exact Hfree |].
      specialize (Hnew t Ht). rewrite Hfiles in Hnew.
      apply lookup_insert_None in Hnew as [Hnew _]. exact Hnew. }
    split.
    { intros p Hp. apply not_elem_of_cons in Hp as [Hne Hp].
      rewrite (Hother _ Hp), Hfiles. apply lookup_insert_ne. congruence. }
    split.
    { intros [| i] src' Hi; simpl in Hi.
      - injection Hi as <-. exists tmp. split; [reflexivity |].
        rewrite (Hother _ Hnotin). exact Htmp.
      - apply Hidx. exact Hi. }
    split.
    { intros k Hk. rewrite fmap_cons, not_elem_of_cons in Hk.
      destruct Hk as [Hne Hk]. rewrite (Hkeep _ Hk).
      apply lookup_insert_ne. congruence. }
    split.
    { intros [| i] src' t Hi Ht Hlater; simpl in Hi, Ht.
      - injection Hi as <-. injection Ht as <-.
        rewrite Hkeep; [apply lookup_insert_eq |].
        intros (src' & Heq & Hin)%list_elem_of_fmap.
        apply list_elem_of_lookup in Hin as [j Hj].
        apply (Hlater (S j) src'); [lia | exact Hj | congruence].
      - apply (Hlast i src' t Hi Ht).
        intros j src'' Hij Hj. apply (Hlater (S j) src''); [lia | exact Hj]. }
    rewrite Hdom, dom_insert_L, fmap_cons.
    change (list_to_set (Path src :: (Path <$> rest)))
      with ({[Path src]} ∪ list_to_set (Path <$> rest) : gset string).
    rewrite (comm_L (∪) {[Path src]} (dom omap)), (assoc_L (∪)).
    reflexivity.
Qed.

Section OverlayFiles.

Variable json_Marshal : gmap string (gmap string string) -> result string.

(** A successful build, without any condition on the paths. *)
Lemma CreateOverlayFile_Ok (srcs : list ReplacedNetSource) (w w' : World)
  (f : OverlayFile) :
  CreateOverlayFile json_Marshal srcs w = (Ok f, w') ->
  exists (overlayMap : gmap string string) (content : string),
    json_Marshal {[ "Replace" := overlayMap ]} = Ok content
    /\ files w' !! overlayPath f = Some content
    /\ length (tmpFilePaths f) = length srcs
    /\ NoDup (overlayPath f :: tmpFilePaths f)
    /\ (forall p, p ∈ overlayPath f :: tmpFilePaths f ->
          files w !! p = None)
    /\ (forall p, p ∉ overlayPath f :: tmpFilePaths f ->
          files w' !! p = files w !! p)
    /\ (forall i src, srcs !! i = Some src ->
          exists t, tmpFilePaths f !! i = Some t
                    /\ files w' !! t = Some (Content src))
    /\ (forall i src t,
          srcs !! i = Some src -> tmpFilePaths f !! i = Some t ->
          (forall j src', i < j -> srcs !! j = Some src' ->
             Path src' <> Path src) ->
          overlayMap !! Path src = Some t)
    /\ dom overlayMap = list_to_set (Path <$> srcs).
Proof.
  unfold CreateOverlayFile.
  destruct (writeSources srcs [] ∅ w) as [[[tmps omap] | e] w1] eqn:Hws;
    [| discriminate].
  destruct (os_CreateTemp _ w1) as [[manifest | e] w2] eqn:Hcreate;
    [| discriminate].
  destruct (json_Marshal _) as [content | e] eqn:Hjson; [| discriminate].
  destruct (file_Write manifest content w2) as [[e |] w3] eqn:Hwrite;
    [discriminate |].
  intros [= <- <-]. simpl.
  destruct (writeSources_files _ _ _ _ _ _ _ Hws)
    as (news & Htmps & Hlen & Hnodup & Hnew & Hother & Hidx & _
        & Hlast & Hdom).
  simpl in Htmps. subst tmps.
  destruct (temp_file_written _ _ _ _ _ _ Hcreate Hwrite) as [Hfree Hfiles].
  assert (Hnotin : manifest ∉ news).
  { intros Hin. apply list_elem_of_lookup in Hin as [i Hi].
    assert (Hlt : i < length srcs)
      by (rewrite <- Hlen; eapply lookup_lt_Some; exact Hi).
    apply lookup_lt_is_Some in Hlt as [src Hsrc].
    destruct (Hidx i src Hsrc) as (t & Ht & Hcontent).
    rewrite Hi in Ht. injection Ht as <-. congruence. }
  exists omap, content.
  split; [exact Hjson |].
  split; [rewrite Hfiles; apply lookup_insert_eq |].
  split; [exact Hlen |].
  split; [apply NoDup_cons; auto |]. split.
  { intros p [-> | Hp]%elem_of_cons; [| apply Hnew; exact Hp].
    rewrite <- (Hother _ Hnotin). exact Hfree. }
  split.
  { intros p Hp. apply not_elem_of_cons in Hp as [Hne Hp].
    rewrite Hfiles, lookup_insert_ne by congruence.
    apply Hother. exact Hp. }
  split.
  { intros i src Hi. destruct (Hidx i src Hi) as (t & Ht & Hcontent).
    exists t. split; [exact Ht |].
    rewrite Hfiles, lookup_insert_ne; [exact Hcontent |].
    intros ->. apply Hnotin. eapply list_elem_of_lookup_2. exact Ht. }
  split; [exact Hlast |].
  rewrite Hdom, dom_empty_L. apply (left_id_L ∅ (∪)).
Qed.

(** X10. Whatever comes of [CreateOverlayFile], success or an error
    half-way, no file that was there is removed or changed: the builder
    only adds files. *)
Theorem X10_overlay_build_keeps_existing_files
  (srcs : list ReplacedNetSource) (w : World) (p content : string) :
  files w !! p = Some content ->
  files (CreateOverlayFile json_Marshal srcs w).2 !! p = Some content.
Proof.
  intros Hp. eapply lookup_weaken; [exact Hp |].
  unfold CreateOverlayFile.
  destruct (writeSources srcs [] ∅ w) as [[[tmps omap] | e] w1] eqn:Hws;
    pose proof (writeSources_frame _ _ _ _ _ _ Hws) as Hsub;
    [| exact Hsub].
  destruct (os_CreateTemp _ w1) as [[manifest | e] w2] eqn:Hcreate.
  - destruct (json_Marshal _) as [content' | e].
    + destruct (file_Write manifest content' w2) as [r w3] eqn:Hwrite.
      pose proof (temp_file_frame _ _ _ _ _ _ _ Hcreate Hwrite) as Hsub'.
      destruct r; simpl; etrans; eassumption.
    + simpl. apply os_CreateTemp_Ok in Hcreate as [Hfree ->].
      etrans; [exact Hsub |]. apply insert_subseteq. exact Hfree.
  - simpl. apply os_CreateTemp_Err in Hcreate as ->. exact Hsub.
Qed.

(** X11. Building an overlay and closing the handle leaves the files as
    they were before the build: the handle tracks every file that the
    build created, and nothing else. *)
Theorem X11_build_then_Close_restores_the_files
  (srcs : list ReplacedNetSource) (w w' : World) (f : OverlayFile) :
  CreateOverlayFile json_Marshal srcs w = (Ok f, w') ->
  files (Close f w') = files w.
Proof.
  intros Hrun.
  destruct (CreateOverlayFile_Ok _ _ _ _ Hrun)
    as (omap & content & _ & _ & _ & _ & Hfresh & Hother & _).
  apply map_eq. intros p. rewrite Close_files, delete_all_lookup.
  destruct (decide (p ∈ overlayPath f :: tmpFilePaths f)) as [Hin | Hnin].
  - symmetry. apply Hfresh. exact Hin.
  - apply Hother. exact Hnin.
Qed.

(** X12. Sources that share a path are each written to a temporary file of
    their own, which the handle tracks, but the manifest has one entry for
    the path: the temporary file of the last source with that path. *)
Theorem X12_repeated_path_keeps_the_last_source
  (srcs : list ReplacedNetSource) (w w' : World) (f : OverlayFile) :
  CreateOverlayFile json_Marshal srcs w = (Ok f, w') ->
  exists (overlayMap : gmap string string) (content : string),
    json_Marshal {[ "Replace" := overlayMap ]} = Ok content
    /\ files w' !! overlayPath f = Some content
    /\ length (tmpFilePaths f) = length srcs
    /\ NoDup (tmpFilePaths f)
    /\ (forall i src, srcs !! i = Some src ->
          exists t, tmpFilePaths f !! i = Some t
                    /\ files w' !! t = Some (Content src))
    /\ dom overlayMap = list_to_set (Path <$> srcs)
    /\ size overlayMap <= length srcs
    /\ (forall i src t,
          srcs !! i = Some src -> tmpFilePaths f !! i = Some t ->
          (forall j src', i < j -> srcs !! j = Some src' ->
             Path src' <> Path src) ->
          overlayMap !! Path src = Some t).
Proof.
  intros Hrun.
  destruct (CreateOverlayFile_Ok _ _ _ _ Hrun)
    as (omap & content & Hjson & Hfile & Hlen & Hnodup & _ & _ & Hidx
        & Hlast & Hdom).
  exists omap, content.
  split; [exact Hjson |]. split; [exact Hfile |]. split; [exact Hlen |].
  split; [apply NoDup_cons in Hnodup as [_ H]; exact H |].
  split; [exact Hidx |]. split; [exact Hdom |]. split; [| exact Hlast].
  rewrite <- size_dom, Hdom. unfold size, set_size. simpl.
  etrans; [| apply Nat.eq_le_incl, (length_fmap Path srcs)].
  apply submseteq_length, NoDup_submseteq; [apply NoDup_elements |].
  intros x Hx. apply elem_of_elements, elem_of_list_to_set in Hx. exact Hx.
Qed.

End OverlayFiles.

(** The write to the second temporary file fails: the build returns the
    error, the first temporary file stays behind, and the file that was
    there is kept. *)
Lemma X10_overlay_build_witness :
  (CreateOverlayFile sampleMarshal twoSources fullDiskWorld).1
  = Err (errorString
           "failed to write file content: write /tmp/sock.go_77: no space left on device")
  /\ files (CreateOverlayFile sampleMarshal twoSources fullDiskWorld).2
       !! "/tmp/dial.go_7" = Some "package net // dial"
  /\ files (CreateOverlayFile sampleMarshal twoSources fullDiskWorld).2
       !! "/home/user/notes" = Some "kept".
Proof.
  split; [vm_compute; reflexivity |]. split; [vm_compute; reflexivity |].
  apply (X10_overlay_build_keeps_existing_files sampleMarshal twoSources
           fullDiskWorld "/home/user/notes" "kept").
  vm_compute; reflexivity.
Defined.

(** Two sources built into an overlay beside a file that was there. *)
Lemma X11_build_then_Close_witness :
  exists f w',
    CreateOverlayFile sampleMarshal twoSources
      (sampleWorld {[ "/home/user/notes" := "kept" ]} []) = (Ok f, w')
    /\ size (files w') = 4
    /\ files (Close f w') = {[ "/home/user/notes" := "kept" ]}.
Proof.
  eexists. eexists.
  assert (Hrun : CreateOverlayFile sampleMarshal twoSources
                   (sampleWorld {[ "/home/user/notes" := "kept" ]} [])
                 = (Ok _, _))
    by (vm_compute; reflexivity).
  split; [exact Hrun |]. split; [vm_compute; reflexivity |].
  apply (X11_build_then_Close_restores_the_files sampleMarshal _ _ _ _ Hrun).
Defined.

(** Two sources under one path: two temporary files, one entry. *)
Lemma X12_repeated_path_witness :
  exists f w' (overlayMap : gmap string string),
    CreateOverlayFile sampleMarshal samePathSources (sampleWorld ∅ [])
    = (Ok f, w')
    /\ tmpFilePaths f = ["/tmp/dial.go_7"; "/tmp/dial.go_77"]
    /\ files w' !! "/tmp/dial.go_7" = Some "package net // first"
    /\ dom overlayMap = list_to_set (Path <$> samePathSources)
    /\ overlayMap !! "/go/src/net/dial.go" = Some "/tmp/dial.go_77".
Proof.
  eexists. eexists.
  assert (Hrun : CreateOverlayFile sampleMarshal samePathSources
                   (sampleWorld ∅ []) = (Ok _, _))
    by (vm_compute; reflexivity).
  destruct (X12_repeated_path_keeps_the_last_source sampleMarshal _ _ _ _ Hrun)
    as (overlayMap & content & _ & _ & _ & _ & _ & Hdom & _ & Hlast).
  exists overlayMap.
  split; [exact Hrun |]. split; [reflexivity |].
  split; [vm_compute; reflexivity |]. split; [exact Hdom |].
  apply (Hlast 1 {| Path := "/go/src/net/dial.go";
                    Content := "package net // second" |});
    [reflexivity | reflexivity |].
  intros [| [| j]] src' Hj Hsrc; try lia. discriminate.
Defined.

(** ** From the net package to the overlay *)

Section WholePipeline.

Variable ParseFile : string -> string -> result File.
Variable format_Node : File -> result string.
Variable json_Marshal : gmap string (gmap string string) -> result string.

(** X13. When [CreateReplacedNetPkgOverlayFile] succeeds, the manifest has
    exactly one entry for each path of the working set, which is not
    empty, and the entry of a path names a temporary file that holds what
    [createReplacedNetSource] returns for that path; the temporary files
    are tracked in the order of the working set. *)
Theorem X13_overlay_covers_the_working_set
  (w w' : World) (f : OverlayFile) :
  CreateReplacedNetPkgOverlayFile ParseFile format_Node json_Marshal w
  = (Ok f, w') ->
  exists (netPkgFiles : list string) (overlayMap : gmap string string)
         (content : string),
    netPkgGoFiles w = Ok netPkgFiles
    /\ json_Marshal {[ "Replace" := overlayMap ]} = Ok content
    /\ files w' !! overlayPath f = Some content
    /\ let paths :=
         findSourcePaths ParseFile w netPkgFiles
           [dialMatcher; listenMatcher] in
       paths <> []
       /\ dom overlayMap = list_to_set paths
       /\ size overlayMap = length paths
       /\ length (tmpFilePaths f) = length paths
       /\ forall i path, paths !! i = Some path ->
            exists t buf,
              tmpFilePaths f !! i = Some t
              /\ overlayMap !! path = Some t
              /\ createReplacedNetSource ParseFile format_Node w path
                 = Ok buf
              /\ files w' !! t = Some buf.
Proof.
  unfold CreateReplacedNetPkgOverlayFile, GetReplacedNetSources.
  destruct (netPkgGoFiles w) as [netPkgFiles | e]; [| discriminate].
  set (paths := findSourcePaths ParseFile w netPkgFiles
                  [dialMatcher; listenMatcher]).
  destruct (Nat.eqb (length paths) 0) eqn:Hlen; [discriminate |].
  destruct (replaceAll ParseFile format_Node w paths []) as [srcs | e]
    eqn:Hall; [| discriminate].
  intros Hrun.
  apply replaceAll_Ok in Hall as (news & Heq & Hpaths & Hcontent).
  simpl in Heq. subst news.
  assert (Hnd : NoDup paths) by apply findSourcePaths_NoDup.
  destruct (CreateOverlayFile_Ok _ _ _ _ _ Hrun)
    as (omap & content & Hjson & Hfile & Hlen' & _ & _ & _ & Hidx
        & Hlast & Hdom).
  exists netPkgFiles, omap, content.
  split; [reflexivity |]. split; [exact Hjson |]. split; [exact Hfile |].
  cbv zeta. fold paths. rewrite Hpaths in Hdom.
  split; [intros Hnil; rewrite Hnil in Hlen; discriminate |].
  split; [exact Hdom |].
  split; [rewrite <- size_dom, Hdom; apply size_list_to_set; exact Hnd |].
  split; [rewrite Hlen', <- Hpaths; symmetry; apply length_fmap |].
  intros i path Hi. rewrite <- Hpaths in Hi.
  apply list_lookup_fmap_Some in Hi as (src & -> & Hsrc).
  destruct (Hidx i src Hsrc) as (t & Ht & Hbuf).
  exists t, (Content src). split; [exact Ht |].
  rewrite Forall_lookup in Hcontent.
  split; [| split; [apply (Hcontent i src Hsrc) | exact Hbuf]].
  apply (Hlast i src t Hsrc Ht).
  intros j src' Hij Hj Heq.
  assert (i = j); [| lia].
  apply (NoDup_lookup paths i j (Path src)); [exact Hnd | |];
    rewrite <- Hpaths, list_lookup_fmap.
  - rewrite Hsrc. reflexivity.
  - rewrite Hj. simpl. congruence.
Qed.

End WholePipeline.

(** The sample tree with two files that hold a target and one that holds
    none, from the walk to the manifest. *)
Lemma X13_overlay_witness :
  exists f w',
    CreateReplacedNetPkgOverlayFile sampleParse sampleFormat sampleMarshal
      (sampleWorld {[ "/go/src/net/dial.go" := "dial";
                      "/go/src/net/lookup.go" := "lookup";
                      "/go/src/net/sock.go" := "listen" ]}
         [NFile "dial.go"; NFile "lookup.go"; NFile "sock.go"])
    = (Ok f, w')
    /\ tmpFilePaths f = ["/tmp/dial.go_7"; "/tmp/sock.go_77"]
    /\ exists overlayMap : gmap string string,
         dom overlayMap
         = list_to_set ["/go/src/net/dial.go"; "/go/src/net/sock.go"]
         /\ size overlayMap = 2.
Proof.
  eexists. eexists.
  assert (Hrun :
    CreateReplacedNetPkgOverlayFile sampleParse sampleFormat sampleMarshal
      (sampleWorld {[ "/go/src/net/dial.go" := "dial";
                      "/go/src/net/lookup.go" := "lookup";
                      "/go/src/net/sock.go" := "listen" ]}
         [NFile "dial.go"; NFile "lookup.go"; NFile "sock.go"])
    = (Ok _, _)) by (vm_compute; reflexivity).
  split; [exact Hrun |]. split; [reflexivity |].
  destruct (X13_overlay_covers_the_working_set _ _ _ _ _ _ Hrun)
    as (netPkgFiles & overlayMap & content & Hfiles & _ & _ & Hrest).
  assert (netPkgFiles = ["/go/src/net/dial.go"; "/go/src/net/lookup.go";
                         "/go/src/net/sock.go"]) as ->.
  { assert (Hwalk : netPkgGoFiles
      (sampleWorld {[ "/go/src/net/dial.go" := "dial";
                      "/go/src/net/lookup.go" := "lookup";
                      "/go/src/net/sock.go" := "listen" ]}
         [NFile "dial.go"; NFile "lookup.go"; NFile "sock.go"])
      = Ok ["/go/src/net/dial.go"; "/go/src/net/lookup.go";
            "/go/src/net/sock.go"]) by (vm_compute; reflexivity).
    rewrite Hwalk in Hfiles. injection Hfiles as <-. reflexivity. }
  cbv zeta in Hrest. destruct Hrest as (_ & Hdom & Hsize & _).
  exists overlayMap. split; [exact Hdom | exact Hsize].
Defined.

(** ** What discovery collects *)








(** ** A net directory that cannot be examined *)

(** X15. When the directory of the net package itself cannot be examined,
    because [Lstat] fails on it or it cannot be listed, the walk collects
    nothing and its error is dropped: what the caller of
    [GetReplacedNetSources] sees is the error of the empty working set,
    not the error of the file system. *)
Theorem X15_unreadable_net_directory_reports_no_sources
  (ParseFile : string -> string -> result File)
  (format_Node : File -> result string)
  (w : World) (out : string) :
  goEnvGOROOT w = (out, None) ->
  (exists name msg,
     tree w (Join [TrimSpace out; "src"; "net"]) = NBroken name msg)
  \/ (exists name msg entries,
        tree w (Join [TrimSpace out; "src"; "net"])
        = NDir name (Some msg) entries) ->
  netPkgGoFiles w = Ok []
  /\ GetReplacedNetSources ParseFile format_Node w
     = Err (errorString "failed to find net package source files").
Proof.
  intros Hgo Hroot.
  assert (Hwalk : netPkgGoFiles w = Ok []).
  { unfold netPkgGoFiles, netPkgDir, Walk. rewrite Hgo.
    rewrite (walk_collects _ _ []).
    destruct Hroot as [(name & msg & ->) | (name & msg & entries & ->)];
      reflexivity. }
  split; [exact Hwalk |].
  unfold GetReplacedNetSources. rewrite Hwalk. reflexivity.
Qed.

(** The directory of the net package does not exist. *)
Lemma X15_unreadable_net_directory_witness :
  GetReplacedNetSources sampleParse sampleFormat
    {| files := ∅;
       goEnvGOROOT := ("/go" +:+ newline, None);
       tree := fun _ =>
         NBroken "net" "lstat /go/src/net: no such file or directory";
       TempDir := "/tmp";
       nextRandom := fun _ => "7";
       drawn := 0;
       openErr := fun _ => None;
       writeErr := fun _ => None |}
  = Err (errorString "failed to find net package source files").
Proof.
  apply (X15_unreadable_net_directory_reports_no_sources
           sampleParse sampleFormat _ ("/go" +:+ newline)).
  - reflexivity.
  - left. eexists. eexists. reflexivity.
Defined.
